(** * pyinfra: the AppJail connector and the FreeBSD service / sysrc operations

    A shallow embedding of
      - [pyinfra/operations/freebsd/service.py]  (operation [service]),
      - [pyinfra/operations/freebsd/sysrc.py]    (operation [sysrc]),
      - [pyinfra/connectors/appjail.py]          (class [AppJailConnector]),
    followed by the properties of these functions.

    Python values are modelled as follows.  A [str] is a [string]; a value
    that may be [None] is an [option]; a keyword dictionary ([**arguments])
    is a [gmap string Value]; a generator that yields at most one command is
    a result type with one constructor per way of finishing; code that
    touches the file system, spawns processes or raises is a function from
    the world before to an outcome and the world after. *)

From Stdlib Require Import ZArith List Ascii String Bool Lia.
From stdpp Require Import base option gmap strings list fin_maps.
Import ListNotations.

Local Open Scope string_scope.
Local Open Scope list_scope.

(** ** Python preliminaries *)

(** Truthiness of a [str]: only the empty string is false. *)
Definition str_truthy (s : string) : bool :=
  match s with
  | EmptyString => false
  | String _ _ => true
  end.

(** Truthiness of an optional [str] ([None] is false). *)
Definition opt_truthy (o : option string) : bool :=
  match o with
  | Some s => str_truthy s
  | None => false
  end.

(** [d.get(key)] used as a condition and then as a value: the value when it
    is true, nothing when the key is absent or the value is false. *)
Definition truthy_get (o : option string) : option string :=
  match o with
  | Some s => if str_truthy s then Some s else None
  | None => None
  end.

(** A [str] is held as its UTF-8 bytes.  A character (a code point) is then
    a byte that is not a continuation byte (one of 128 to 191), together with
    the continuation bytes that follow it. *)
Definition is_continuation_byte (c : ascii) : bool :=
  ((128 <=? N_of_ascii c) && (N_of_ascii c <=? 191))%N.

Definition starts_with_continuation (s : string) : bool :=
  match s with
  | String c _ => is_continuation_byte c
  | EmptyString => false
  end.

(** Iterating over a [str] yields its characters, each a [str] of length 1:
    a byte joins the character that starts before it when it is a
    continuation byte, and starts a character otherwise. *)
Fixpoint iter_str (s : string) : list string :=
  match s with
  | EmptyString => []
  | String c rest =>
      if starts_with_continuation rest then
        match iter_str rest with
        | character :: characters => String c character :: characters
        | [] => [String c EmptyString]
        end
      else String c EmptyString :: iter_str rest
  end.

(** ** Commands ([pyinfra.api.command])

    A [StringCommand] holds its bits in order.  A bit is a plain [str],
    inserted as it is, or a [QuoteString] wrapping an object that is shell
    quoted when the command is rendered.  The wrapped object is whatever the
    caller passed: a [str], another command, and (in [service]) [None] or a
    list. *)
Inductive Bit : Type :=
| Raw (s : string)
| QuoteString (obj : Quotable)
with Quotable : Type :=
| QStr (s : string)
| QCommand (bits : list Bit)
| QNone
| QList (l : list string).

Abbreviation StringCommand := (list Bit).

(** What an [@operation] generator does before it finishes: it reports a
    no-op through [host.noop] and returns without yielding, or it yields one
    command. *)
Inductive OperationResult : Type :=
| Noop (message : string)
| Yield (command : StringCommand).

(** ** [pyinfra.operations.freebsd.service] *)
Module Service.

Inductive ServiceStates : Type :=
| SRV_STARTED
| SRV_STOPPED
| SRV_RESTARTED
| SRV_RELOADED
| SRV_CUSTOM.

(** The [command] argument: [Optional[Union[str, List[str]]]]. *)
Inductive CommandArg : Type :=
| CommandNone
| CommandStr (s : string)
| CommandList (l : list string).

Section Operation.

(** The facts [host.get_fact(ServiceScript, ...)] and
    [host.get_fact(ServiceStatus, ...)], read for their truth value. *)
Variable ServiceScript : string -> option string -> bool.
Variable ServiceStatus : string -> option string -> bool.

(** [for env_var in environment: args.extend(["-E", QuoteString(env_var)])] *)
Definition extend_environment (args : StringCommand) (environment : list string)
  : StringCommand :=
  fold_left (fun acc env_var => acc ++ [Raw "-E"; QuoteString (QStr env_var)])
            environment args.

(** [if not isinstance(command, str): command = [command]], then
    [(QuoteString(c) for c in command)]: a [str] is iterated character by
    character, anything else is wrapped in a one-element list. *)
Definition custom_bits (command : CommandArg) : StringCommand :=
  match command with
  | CommandStr s => map (fun c => QuoteString (QStr c)) (iter_str s)
  | CommandNone => [QuoteString QNone]
  | CommandList l => [QuoteString (QList l)]
  end.

(** The arguments built before the branch on [state]. *)
Definition service_prefix (jail : option string) (environment : option (list string))
  (verbose : bool) : StringCommand :=
  let args := [Raw "service"] in
  let args := if verbose then args ++ [Raw "-v"] else args in
  let args :=
    match jail with
    | Some j => args ++ [Raw "-j"; QuoteString (QStr j)]
    | None => args
    end in
  match environment with
  | Some env => extend_environment args env
  | None => args
  end.

(** The final [else: raise OperationValueError] is not reachable for a member
    of the enumeration [ServiceStates], so it has no case here. *)
Definition service (srvname : string) (jail : option string) (state : ServiceStates)
  (command : CommandArg) (environment : option (list string)) (verbose : bool)
  : OperationResult :=
  if negb (ServiceScript srvname jail) then
    Noop ("Cannot find rc(8) script '" +:+ srvname +:+ "'")
  else
    let args := service_prefix jail environment verbose in
    match state with
    | SRV_STARTED =>
        if ServiceStatus srvname jail then
          Noop ("Service '" +:+ srvname +:+ "' already started")
        else Yield (args ++ [QuoteString (QStr srvname); Raw "start"])
    | SRV_STOPPED =>
        if negb (ServiceStatus srvname jail) then
          Noop ("Service '" +:+ srvname +:+ "' already stopped")
        else Yield (args ++ [QuoteString (QStr srvname); Raw "stop"])
    | SRV_RESTARTED => Yield (args ++ [QuoteString (QStr srvname); Raw "restart"])
    | SRV_RELOADED => Yield (args ++ [QuoteString (QStr srvname); Raw "reload"])
    | SRV_CUSTOM =>
        let args := args ++ [QuoteString (QStr srvname)] in
        Yield (args ++ custom_bits command)
    end.

End Operation.
End Service.

(** ** [pyinfra.operations.freebsd.sysrc] *)
Module Sysrc.

Inductive SysrcCommands : Type :=
| SYSRC_ADD
| SYSRC_SUB
| SYSRC_SET
| SYSRC_DEL.

Section Operation.

(** The fact [host.get_fact(Sysrc, parameter=..., jail=...)]: the value of the
    parameter, read for its truth value ([None] and the empty string are
    false). *)
Variable SysrcFact : string -> option string -> option string.

(** The tail shared by the four commands, after [sign] is chosen. *)
Definition sysrc_command (args : StringCommand) (parameter sign value : string)
  (jail : option string) : StringCommand :=
  let args :=
    match jail with
    | Some j => args ++ [Raw "-j"; QuoteString (QStr j)]
    | None => args
    end in
  args ++ [Raw "--"; QuoteString (QStr (parameter +:+ sign +:+ value))].

(** The final [else: raise OperationValueError] is not reachable for a member
    of the enumeration [SysrcCommands]. *)
Definition sysrc (parameter value : string) (jail : option string)
  (command : SysrcCommands) (overwrite : bool) : OperationResult :=
  let args := [] ++ [Raw "sysrc"; Raw "-i"] in
  match command with
  | SYSRC_DEL =>
      if negb (opt_truthy (SysrcFact parameter jail)) then
        Noop ("Cannot find sysrc(8) parameter '" +:+ parameter +:+ "'")
      else Yield (sysrc_command args parameter "=" value jail)
  | SYSRC_SET =>
      if negb overwrite && opt_truthy (SysrcFact parameter jail) then
        Noop ("sysrc(8) parameter '" +:+ parameter +:+ "' already set")
      else Yield (sysrc_command args parameter "=" value jail)
  | SYSRC_ADD => Yield (sysrc_command args parameter "+=" value jail)
  | SYSRC_SUB => Yield (sysrc_command args parameter "-=" value jail)
  end.

End Operation.
End Sysrc.

(** ** [pyinfra.connectors.appjail] *)
Module AppJail.

(** *** Data *)

(** Values of the keyword arguments a connector call carries ([_stdin],
    [_get_pty], [_success_exit_codes], [_sudo], ...). *)
Inductive Value : Type :=
| VBool (b : bool)
| VInt (z : Z)
| VStr (s : string)
| VInts (l : list Z).

Abbreviation Arguments := (gmap string Value).

(** [CommandOutput]: what the connector reads of it is the captured text of
    the two streams. *)
Record CommandOutput : Type := mkOutput { stdout : string; stderr : string }.

(** [host.data] as the connector reads it: [host.data.jail],
    [host.data.get("noclean")], [host.data.get("jail_user")],
    [host.data.get("host_user")], and [host.print_prefix]. *)
Record HostData : Type := mkHostData {
  data_jail : string;
  data_noclean : bool;
  data_jail_user : option string;
  data_host_user : option string;
  print_prefix : string
}.

(** The exceptions that travel through the connector.  [ConnectError] is a
    subclass of [PyinfraError]; [FileNotFoundError] and [UnicodeDecodeError]
    come from [open] and [read]; [AttributeError] from reading [self.jail]
    before [connect] has set it. *)
Inductive Exn : Type :=
| PyinfraError (message : string)
| ConnectError (message : string)
| IOError (message : string)
| FileNotFoundError (path : string)
| UnicodeDecodeError
| AttributeError (name : string)
| OtherError (message : string).

(** [except PyinfraError as err]: the exceptions the clause catches, with
    [err.args[0]]. *)
Definition as_PyinfraError (e : Exn) : option string :=
  match e with
  | PyinfraError m => Some m
  | ConnectError m => Some m
  | _ => None
  end.

Inductive Outcome (A : Type) : Type :=
| Ret (a : A)
| Raise (e : Exn).
Arguments Ret {A} a.
Arguments Raise {A} e.

(** The [filename_or_io] argument of [put_file] and [get_file]. *)
Inductive FileOrIO : Type :=
| Filename (path : string)
| IOObject (id : nat).

(** What [file_io.read()] returns: a [str] or [bytes].  A [str] is held as
    its UTF-8 bytes, so [data.encode()] returns the bytes it holds. *)
Inductive ReadData : Type :=
| DataStr (s : string)
| DataBytes (b : string).

(** [if isinstance(data, str): data = data.encode()] *)
Definition to_bytes (data : ReadData) : string :=
  match data with
  | DataStr s => s
  | DataBytes b => b
  end.

(** The controller's files: path to content. *)
Abbreviation FS := (gmap string string).

(** What a call does that can be observed from outside, oldest first. *)
Inductive Event : Type :=
| EvLocalConnect
| EvShell (command : string)
| EvRun (command : StringCommand) (print_output print_input : bool)
        (arguments : Arguments)
| EvMkstemp (path : string)
| EvWriteTemp (path : string) (data : string)
| EvSinkWrite (dest : FileOrIO) (data : string)
| EvRemove (path : string)
| EvEcho (message : string).

(** The world a connector method runs in: the controller's files, the
    connector's own attribute [self.jail] (absent until [connect] sets it),
    and the trace of what was done so far. *)
Record World : Type := mkWorld {
  fs : FS;
  self_jail : option string;
  trace : list Event
}.

(** *** Text mode reading: [open(path, encoding="utf-8").read()] *)

Definition is_continuation (b : N) : bool := ((128 <=? b) && (b <=? 191))%N.

Definition in_range (lo hi b : N) : bool := ((lo <=? b) && (b <=? hi))%N.

(** Well-formed UTF-8 byte sequences (the strict decoder refuses overlong
    forms, surrogates and code points above U+10FFFF). *)
Fixpoint utf8_valid (bs : list N) : bool :=
  match bs with
  | [] => true
  | b0 :: rest =>
      if (b0 <? 128)%N then utf8_valid rest
      else if in_range 194 223 b0 then
        match rest with
        | b1 :: rest1 => is_continuation b1 && utf8_valid rest1
        | _ => false
        end
      else if in_range 224 239 b0 then
        match rest with
        | b1 :: b2 :: rest2 =>
            (if (b0 =? 224)%N then in_range 160 191 b1
             else if (b0 =? 237)%N then in_range 128 159 b1
             else is_continuation b1)
            && is_continuation b2 && utf8_valid rest2
        | _ => false
        end
      else if in_range 240 244 b0 then
        match rest with
        | b1 :: b2 :: b3 :: rest3 =>
            (if (b0 =? 240)%N then in_range 144 191 b1
             else if (b0 =? 244)%N then in_range 128 143 b1
             else is_continuation b1)
            && is_continuation b2 && is_continuation b3 && utf8_valid rest3
        | _ => false
        end
      else false
  end.

Definition byte_codes (s : string) : list N := map N_of_ascii (list_ascii_of_string s).

Definition CR : ascii := ascii_of_nat 13.
Definition LF : ascii := ascii_of_nat 10.

(** Universal newlines (the default of text mode): CR LF and a lone CR are
    read as LF. *)
Fixpoint universal_newlines (s : string) : string :=
  match s with
  | EmptyString => EmptyString
  | String c rest =>
      if Ascii.eqb c CR then
        match rest with
        | String c' rest' =>
            if Ascii.eqb c' LF then String LF (universal_newlines rest')
            else String LF (universal_newlines rest)
        | EmptyString => String LF EmptyString
        end
      else String c (universal_newlines rest)
  end.

(** [temp_f.read()] on a file opened with [encoding="utf-8"]. *)
Definition read_text (content : string) : Outcome string :=
  if utf8_valid (byte_codes content) then Ret (universal_newlines content)
  else Raise UnicodeDecodeError.

(** *** [AppJailConnector.make_names_data]

    The generator either raises [InventoryError] when it is first advanced,
    or yields one entry: the host's name, its data and its groups. *)
Inductive NamesData : Type :=
| InventoryError (message : string)
| YieldHost (name : string) (data : gmap string string) (groups : list string).

(** [name=None] is the default; [if not name] is true of [None] and of the
    empty string. *)
Definition make_names_data (name : option string) : NamesData :=
  match truthy_get name with
  | None => InventoryError "No jail name provided!"
  | Some name => YieldHost ("@appjail/" +:+ name) {[ "jail" := name ]} ["@appjail"]
  end.

(** *** The monad of connector methods

    A method maps the world before the call to its outcome (a value or a
    raised exception) and the world after.  Effects done before an exception
    is raised stay done. *)
Definition M (A : Type) : Type := World -> Outcome A * World.

#[export] Instance M_ret : MRet M := fun A a w => (Ret a, w).

#[export] Instance M_bind : MBind M := fun A B k m w =>
  match m w with
  | (Ret a, w') => k a w'
  | (Raise e, w') => (Raise e, w')
  end.

Definition raise {A : Type} (e : Exn) : M A := fun w => (Raise e, w).

(** [try: body finally: cleanup].  The cleanup runs on every exit of the
    body; an exception raised by the cleanup replaces the body's outcome. *)
Definition try_finally {A : Type} (body : M A) (cleanup : M unit) : M A :=
  fun w =>
    let '(r, w1) := body w in
    match cleanup w1 with
    | (Ret _, w2) => (r, w2)
    | (Raise e, w2) => (Raise e, w2)
    end.

(** [try: body except PyinfraError as err: handler(err.args[0])] *)
Definition try_except_PyinfraError {A : Type} (body : M A) (handler : string -> M A)
  : M A :=
  fun w =>
    match body w with
    | (Ret a, w') => (Ret a, w')
    | (Raise e, w') =>
        match as_PyinfraError e with
        | Some message => handler message w'
        | None => (Raise e, w')
        end
    end.

Definition log (ev : Event) : M unit :=
  fun w => (Ret tt, mkWorld (fs w) (self_jail w) (trace w ++ [ev])).

(** *** The environment

    What the connector calls and the sources do not contain: the helpers of
    [pyinfra.connectors.util], [pyinfra.local.shell], the child process run
    by the local connector, [mkstemp], and the caller's file objects.  Each
    is a function of the controller's files, so that it may read and change
    them as it likes. *)
Record Env : Type := mkEnv {
  (** the option names [extract_control_arguments] takes out *)
  control_argument_keys : gset string;
  (** [make_unix_command_for_host(state, host, command, **arguments)] *)
  make_unix_command_for_host : StringCommand -> Arguments -> StringCommand;
  (** [pyinfra.local.shell(command)]: the output, or an exception *)
  local_shell : string -> FS -> Outcome string * FS;
  (** the child process of the local connector: exit code and output *)
  run_local_process : StringCommand -> Arguments -> FS -> (Z * CommandOutput) * FS;
  (** the path [mkstemp()] picks *)
  mkstemp_name : FS -> string;
  (** [with get_file_io(filename_or_io) as file_io: file_io.read()] *)
  source_read : FileOrIO -> FS -> Outcome ReadData;
  (** entering [get_file_io(filename_or_io, "wb")] *)
  sink_open : FileOrIO -> FS -> Outcome unit * FS;
  (** [file_io.write(data_bytes)] *)
  sink_write : FileOrIO -> string -> FS -> Outcome unit * FS
}.

Section Connector.

Variable env : Env.
Variable host : HostData.

(** **** Primitive actions *)

(** [local.shell(command)] *)
Definition shell (command : string) : M string :=
  fun w =>
    let '(r, fs') := local_shell env command (fs w) in
    (r, mkWorld fs' (self_jail w) (trace w ++ [EvShell command])).

(** [mkstemp()]: creates an empty file and returns its path. *)
Definition mkstemp : M string :=
  fun w =>
    let path := mkstemp_name env (fs w) in
    (Ret path, mkWorld (<[path := EmptyString]> (fs w)) (self_jail w)
                       (trace w ++ [EvMkstemp path])).

(** [with open(path, "wb") as f: f.write(data)] *)
Definition write_file (path data : string) : M unit :=
  fun w =>
    (Ret tt, mkWorld (<[path := data]> (fs w)) (self_jail w)
                     (trace w ++ [EvWriteTemp path data])).

(** [open(path, encoding="utf-8")]: [FileNotFoundError] when there is no
    such file; the value is what the file holds at this point. *)
Definition open_file (path : string) : M string :=
  fun w =>
    match fs w !! path with
    | Some content => (Ret content, w)
    | None => (Raise (FileNotFoundError path), w)
    end.

(** [os.remove(path)] *)
Definition os_remove (path : string) : M unit :=
  fun w =>
    match fs w !! path with
    | Some _ => (Ret tt, mkWorld (delete path (fs w)) (self_jail w)
                                 (trace w ++ [EvRemove path]))
    | None => (Raise (FileNotFoundError path), w)
    end.

(** Reading the attribute [self.jail]. *)
Definition get_self_jail : M string :=
  fun w =>
    match self_jail w with
    | Some jail => (Ret jail, w)
    | None => (Raise (AttributeError "jail"), w)
    end.

(** [self.jail = jail] *)
Definition set_self_jail (jail : string) : M unit :=
  fun w => (Ret tt, mkWorld (fs w) (Some jail) (trace w)).

(** [temp_f.read()] on the file opened in text mode: it reads what the file
    holds when [read] is called (what it held when it was opened, should the
    path be gone by then). *)
Definition read_opened (path opened : string) : M string :=
  fun w => (read_text (default opened (fs w !! path)), w).

(** [with get_file_io(filename_or_io) as file_io: ... file_io.read()]: the
    source is opened and read.  (The staging file, opened for writing between
    the two, stays as empty as [mkstemp] left it until the write.) *)
Definition read_source (filename_or_io : FileOrIO) : M ReadData :=
  fun w => (source_read env filename_or_io (fs w), w).

(** [get_file_io(dest, "wb").__enter__()] *)
Definition open_sink (dest : FileOrIO) : M unit :=
  fun w =>
    let '(r, fs') := sink_open env dest (fs w) in
    (r, mkWorld fs' (self_jail w) (trace w)).

(** [file_io.write(data)] *)
Definition write_sink (dest : FileOrIO) (data : string) : M unit :=
  fun w =>
    let '(r, fs') := sink_write env dest data (fs w) in
    (r, mkWorld fs' (self_jail w) (trace w ++ [EvSinkWrite dest data])).

(** [click.echo(message, err=True)] *)
Definition echo (message : string) : M unit := log (EvEcho message).

(** **** The helpers of [pyinfra.connectors.util] and the local connector *)

(** Modelled from the spec: [extract_control_arguments] (its code is not
    among the sources).  It takes the options named in its fixed key set out
    of the dictionary it is given and returns them; the first component is
    the returned mapping, the second what is left in [arguments] after the
    call. *)
Definition extract_control_arguments (arguments : Arguments) : Arguments * Arguments :=
  (filter (fun kv => kv.1 ∈ control_argument_keys env) arguments,
   filter (fun kv => kv.1 ∉ control_argument_keys env) arguments).

(** Modelled from the spec: the success set of a call, the option
    [_success_exit_codes], with default [{0}]. *)
Definition success_exit_codes (arguments : Arguments) : list Z :=
  match arguments !! "_success_exit_codes" with
  | Some (VInts codes) => codes
  | _ => [0%Z]
  end.

(** Modelled from the spec: [LocalConnector.run_shell_command] (its code is
    not among the sources).  It runs the command as a child process and
    returns whether the exit code is in the success set, with the captured
    output; it does not raise on a failing exit code. *)
Definition local_run_shell_command (command : StringCommand)
  (print_output print_input : bool) (arguments : Arguments)
  : M (bool * CommandOutput) :=
  fun w =>
    let '((exit_code, output), fs') := run_local_process env command arguments (fs w) in
    (Ret (bool_decide (exit_code ∈ success_exit_codes arguments), output),
     mkWorld fs' (self_jail w)
             (trace w ++ [EvRun command print_output print_input arguments])).

(** **** [AppJailConnector.connect] *)
Definition connect : M unit :=
  log EvLocalConnect ;;
  let jail := data_jail host in
  try_except_PyinfraError
    (shell ("appjail status " +:+ jail))
    (fun message => raise (ConnectError message)) ;;
  set_self_jail jail.

(** **** [AppJailConnector.run_shell_command] *)

(** The list [args] as lines 102 to 113 build it. *)
Definition jexec_args (jail : string) (quoted_command : Bit) : StringCommand :=
  let args := [Raw "appjail"; Raw "cmd"; Raw "jexec"; Raw jail] in
  let args := if data_noclean host then args ++ [Raw "-l"] else args in
  let args :=
    match truthy_get (data_jail_user host) with
    | Some jail_user => args ++ [Raw "-U"; Raw jail_user]
    | None =>
        match truthy_get (data_host_user host) with
        | Some host_user => args ++ [Raw "-u"; Raw host_user]
        | None => args
        end
    end in
  args ++ [Raw "sh"; Raw "-c"; quoted_command].

Definition run_shell_command (command : StringCommand)
  (print_output print_input : bool) (arguments : Arguments)
  : M (bool * CommandOutput) :=
  let '(local_arguments, arguments) := extract_control_arguments arguments in
  jail ← get_self_jail ;
  let command := make_unix_command_for_host env command arguments in
  let quoted_command := QuoteString (QCommand command) in
  local_run_shell_command (jexec_args jail quoted_command)
                          print_output print_input local_arguments.

(** **** [AppJailConnector.put_file] *)

(** The body of the [try] block: the source's data, encoded when it is a
    [str], is written to the staging file; the jail's directory is asked
    for; [cp] is run through the local connector, with no options. *)
Definition put_file_body (temp_filename : string) (filename_or_io : FileOrIO)
  (remote_filename : string) (print_output print_input : bool)
  : M (bool * CommandOutput) :=
  data ← read_source filename_or_io ;
  write_file temp_filename (to_bytes data) ;;
  jail ← get_self_jail ;
  jail_directory ← shell ("appjail cmd local " +:+ jail +:+ " pwd") ;
  let args := [Raw "cp"; Raw temp_filename;
               Raw (jail_directory +:+ "/" +:+ remote_filename)] in
  local_run_shell_command args print_output print_input ∅.

(** What follows the [try ... finally], shared by [put_file] and
    [get_file] up to the words of the message:
    [if not status: raise IOError(output.stderr)], the optional
    [click.echo], [return status]. *)
Definition check_status (what remote_filename : string) (print_output : bool)
  (result : bool * CommandOutput) : M bool :=
  let '(status, output) := result in
  if negb status then raise (IOError (stderr output))
  else
    (if print_output then
       echo (print_prefix host +:+ what +:+ remote_filename)
     else mret tt) ;;
    mret status.

Definition put_file (filename_or_io : FileOrIO) (remote_filename : string)
  (print_output print_input : bool) : M bool :=
  temp_filename ← mkstemp ;
  result ← try_finally
    (put_file_body temp_filename filename_or_io remote_filename
                   print_output print_input)
    (os_remove temp_filename) ;
  check_status "file uploaded to jail: " remote_filename print_output result.

(** **** [AppJailConnector.get_file] *)

(** The body of the [try] block: the jail's directory is asked for; [cp] is
    run through the local connector, with no options; then, whatever the
    status, the staging file is opened as text, the destination is opened
    for writing, the text is read and written out. *)
Definition get_file_body (temp_filename : string) (remote_filename : string)
  (filename_or_io : FileOrIO) (print_output print_input : bool)
  : M (bool * CommandOutput) :=
  jail ← get_self_jail ;
  jail_directory ← shell ("appjail cmd local " +:+ jail +:+ " pwd") ;
  let args := [Raw "cp"; Raw (jail_directory +:+ "/" +:+ remote_filename);
               Raw temp_filename] in
  result ← local_run_shell_command args print_output print_input ∅ ;
  opened ← open_file temp_filename ;
  open_sink filename_or_io ;;
  data ← read_opened temp_filename opened ;
  write_sink filename_or_io data ;;
  mret result.

Definition get_file (remote_filename : string) (filename_or_io : FileOrIO)
  (print_output print_input : bool) : M bool :=
  temp_filename ← mkstemp ;
  result ← try_finally
    (get_file_body temp_filename remote_filename filename_or_io
                   print_output print_input)
    (os_remove temp_filename) ;
  check_status "file downloaded from jail: " remote_filename print_output result.

End Connector.

(** Projections of a world that is written out. *)
Ltac world_simpl := cbn [fs self_jail trace fst snd].

End AppJail.

(** ** The doubles of [tests/test_connectors/test_appjail.py]

    The environment the tests patch in, with a [cp] that copies, so that the
    methods can be run on concrete inputs. *)
Module TestAppJail.
Import AppJail.

(** [fake_jail_shell] *)
Definition fake_jail_shell (command : string) (files : FS) : Outcome string * FS :=
  if String.eqb command "appjail status not-a-jail" then (Ret "True", files)
  else if String.eqb command "appjail cmd local not-a-jail pwd" then
    (Ret "/not-a-jail", files)
  else (Raise (PyinfraError ("Invalid command: " +:+ command)), files).

(** [MagicMock(returncode=...)]: a child process that only exits. *)
Definition fake_process (returncode : Z)
  : StringCommand -> Arguments -> FS -> (Z * CommandOutput) * FS :=
  fun _ _ files => ((returncode, mkOutput "" ""), files).

(** A child process that does what [cp source dest] does. *)
Definition cp_process
  : StringCommand -> Arguments -> FS -> (Z * CommandOutput) * FS :=
  fun command _ files =>
    match command with
    | [Raw cp; Raw source; Raw dest] =>
        if String.eqb cp "cp" then
          match files !! source with
          | Some content => ((0%Z, mkOutput "" ""), <[dest := content]> files)
          | None =>
              ((1%Z, mkOutput "" ("cp: " +:+ source +:+ ": No such file or directory")),
               files)
          end
        else ((127%Z, mkOutput "" "sh: command not found"), files)
    | _ => ((127%Z, mkOutput "" "sh: command not found"), files)
    end.

(** With no options, [make_unix_command] wraps the command in [sh -c]. *)
Definition sh_c (command : StringCommand) (arguments : Arguments) : StringCommand :=
  [Raw "sh"; Raw "-c"; QuoteString (QCommand command)].

(** [mock_open(read_data="test!")] for a file object; a path is looked up. *)
Definition fake_read (source : FileOrIO) (files : FS) : Outcome ReadData :=
  match source with
  | Filename path =>
      match files !! path with
      | Some content => Ret (DataBytes content)
      | None => Raise (FileNotFoundError path)
      end
  | IOObject _ => Ret (DataStr "test!")
  end.

(** [open(path, "wb")] creates or truncates the file; the empty path names
    no file, and opening it raises [FileNotFoundError]. *)
Definition fake_sink_open (dest : FileOrIO) (files : FS) : Outcome unit * FS :=
  match dest with
  | Filename path =>
      if str_truthy path then (Ret tt, <[path := EmptyString]> files)
      else (Raise (FileNotFoundError path), files)
  | IOObject _ => (Ret tt, files)
  end.

Definition fake_sink_write (dest : FileOrIO) (data : string) (files : FS)
  : Outcome unit * FS :=
  match dest with
  | Filename path => (Ret tt, <[path := data]> files)
  | IOObject _ => (Ret tt, files)
  end.

Definition control_keys : gset string :=
  {[ "_success_exit_codes"; "_timeout"; "_get_pty"; "_stdin" ]}.

Definition test_env
  (process : StringCommand -> Arguments -> FS -> (Z * CommandOutput) * FS) : Env :=
  mkEnv control_keys sh_c fake_jail_shell process (fun _ => "__tempfile__")
        fake_read fake_sink_open fake_sink_write.

(** The host [@appjail/not-a-jail]. *)
Definition not_a_jail : HostData :=
  mkHostData "not-a-jail" false None None "[@appjail/not-a-jail] ".

(** The connector after a successful [connect], on the given files. *)
Definition connected (files : FS) : World := mkWorld files (Some "not-a-jail") [].

End TestAppJail.

(** ** Vocabulary of the statements *)

(** The two probes the connector sends through the local shell. *)
Definition status_probe (jail : string) : string := "appjail status " +:+ jail.

Definition root_probe (jail : string) : string :=
  "appjail cmd local " +:+ jail +:+ " pwd".

(** An optional per-host setting is set to [u] when it is present and not
    the empty string, and not set otherwise. *)
Definition is_set (o : option string) (u : string) : Prop :=
  o = Some u /\ u <> EmptyString.

Definition not_set (o : option string) : Prop :=
  o = None \/ o = Some EmptyString.

(** A string of continuation bytes only. *)
Definition continuation_only (s : string) : Prop :=
  Forall (fun c => is_continuation_byte c = true) (list_ascii_of_string s).

(** A [str] of length 1: one byte that starts a character, followed by
    continuation bytes only. *)
Definition one_character (s : string) : Prop :=
  exists c rest,
    s = String c rest /\ is_continuation_byte c = false /\ continuation_only rest.

(** [len(s)]: the number of characters, that is, of bytes that are not
    continuation bytes. *)
Fixpoint str_len (s : string) : nat :=
  match s with
  | EmptyString => 0
  | String c rest => (if is_continuation_byte c then 0 else 1) + str_len rest
  end.

(** ["".join(l)] *)
Definition str_join (l : list string) : string :=
  fold_right String.append EmptyString l.

(** The plain (unquoted) words of a command, in order. *)
Definition raw_words (command : StringCommand) : list string :=
  flat_map (fun bit => match bit with Raw s => [s] | QuoteString _ => [] end) command.

(** Each word of a written-out list is in a written-out list. *)
Ltac words_in := repeat (constructor; [simpl; tauto |]); try constructor.

(** The words the operation [service] writes itself. *)
Definition service_words : list string :=
  ["service"; "-v"; "-j"; "-E"; "start"; "stop"; "restart"; "reload"].

(** The words the operation [sysrc] writes itself. *)
Definition sysrc_words : list string := ["sysrc"; "-i"; "-j"; "--"].

(** A string that holds no carriage return. *)
Definition CR_free (s : string) : Prop :=
  Forall (fun c => c <> AppJail.CR) (list_ascii_of_string s).

(** A method keeps the relation [R] between the world before and the world
    after, and returns only values that satisfy [Q]. *)
Definition keeps {A : Type} (R : AppJail.World -> AppJail.World -> Prop)
  (m : AppJail.M A) (Q : A -> Prop) : Prop :=
  forall w, R w (m w).2 /\ forall a, (m w).1 = AppJail.Ret a -> Q a.

(** The world after has the trace of the world before, extended by events
    that all satisfy [P]. *)
Definition extends_trace (P : AppJail.Event -> Prop) (w w' : AppJail.World) : Prop :=
  exists new, AppJail.trace w' = AppJail.trace w ++ new /\ Forall P new.

(** A step of a method that is not [connect]: [self.jail] is as before, and
    the trace is extended by events that satisfy [P]. *)
Definition steps (P : AppJail.Event -> Prop) (w w' : AppJail.World) : Prop :=
  AppJail.self_jail w' = AppJail.self_jail w /\ extends_trace P w w'.

(** An event that touches no file but the staging file [temp_filename]: it
    is no write to a destination, and when it creates, writes or removes a
    file, that file is the staging file. *)
Definition staging_only (temp_filename : string) (ev : AppJail.Event) : Prop :=
  match ev with
  | AppJail.EvSinkWrite _ _ => False
  | AppJail.EvMkstemp path => path = temp_filename
  | AppJail.EvWriteTemp path _ => path = temp_filename
  | AppJail.EvRemove path => path = temp_filename
  | _ => True
  end.

(** * Properties *)

(** ** The operations [service] and [sysrc] *)

Lemma append_cons (c : ascii) (a b : string) :
  String c a +:+ b = String c (a +:+ b).
Proof. reflexivity. Qed.

Lemma append_empty_l (b : string) : EmptyString +:+ b = b.
Proof. reflexivity. Qed.

Lemma append_empty_r (s : string) : s +:+ EmptyString = s.
Proof.
  induction s as [| c rest IH]; [reflexivity |].
  now rewrite append_cons, IH.
Qed.

Lemma iter_str_cons (c : ascii) (rest : string) :
  iter_str (String c rest)
  = if starts_with_continuation rest then
      match iter_str rest with
      | character :: characters => String c character :: characters
      | [] => [String c EmptyString]
      end
    else String c EmptyString :: iter_str rest.
Proof. reflexivity. Qed.

(** The characters of a [str], joined, are the [str]. *)
Lemma iter_str_join (s : string) : str_join (iter_str s) = s.
Proof.
  unfold str_join.
  induction s as [| c rest IH]; [reflexivity |].
  rewrite iter_str_cons.
  destruct (starts_with_continuation rest).
  - destruct (iter_str rest) as [| character characters]; cbn [fold_right] in *.
    + now rewrite <- IH.
    + now rewrite append_cons, IH.
  - cbn [fold_right]. now rewrite IH, append_cons, append_empty_l.
Qed.

(** The first character starts with the first byte; its other bytes and
    the characters after it are as they should be. *)
Lemma iter_str_shape (c : ascii) (rest : string) :
  exists tail characters,
    iter_str (String c rest) = String c tail :: characters
    /\ continuation_only tail
    /\ Forall one_character characters.
Proof.
  revert c. induction rest as [| c' rest' IH]; intros c.
  - exists EmptyString, []. repeat split; constructor.
  - destruct (IH c') as (tail' & characters' & Hrest & Htail' & Hchars').
    rewrite iter_str_cons, Hrest. cbn [starts_with_continuation].
    destruct (is_continuation_byte c') eqn:Hc'.
    + exists (String c' tail'), characters'. repeat split; [| exact Hchars'].
      constructor; [exact Hc' | exact Htail'].
    + exists EmptyString, (String c' tail' :: characters').
      repeat split; [constructor |].
      constructor; [| exact Hchars'].
      exists c', tail'. auto.
Qed.

Lemma iter_str_characters (s : string) :
  starts_with_continuation s = false -> Forall one_character (iter_str s).
Proof.
  destruct s as [| c rest]; intros Hstart; [constructor |].
  destruct (iter_str_shape c rest) as (tail & characters & -> & Htail & Hchars).
  constructor; [| exact Hchars]. exists c, tail. auto.
Qed.

Lemma iter_str_length (s : string) :
  length (iter_str s)
  = str_len s + if starts_with_continuation s then 1 else 0.
Proof.
  induction s as [| c rest IH]; [reflexivity |].
  rewrite iter_str_cons. cbn [str_len starts_with_continuation].
  destruct rest as [| c' rest'].
  - cbn. destruct (is_continuation_byte c); reflexivity.
  - destruct (iter_str_shape c' rest') as (tail & characters & Hrest & _ & _).
    rewrite Hrest in *. cbn [starts_with_continuation] in *.
    destruct (is_continuation_byte c'), (is_continuation_byte c);
      cbn [length] in *; lia.
Qed.

(** Well-formed text does not start with a continuation byte. *)
Lemma utf8_valid_starts (s : string) :
  AppJail.utf8_valid (AppJail.byte_codes s) = true ->
  starts_with_continuation s = false.
Proof.
  destruct s as [| c rest]; [reflexivity |].
  unfold AppJail.byte_codes. cbn [list_ascii_of_string map AppJail.utf8_valid].
  unfold starts_with_continuation, is_continuation_byte, AppJail.in_range.
  set (b := N_of_ascii c).
  destruct (N.ltb_spec b 128) as [Hlow | Hlow].
  - intros _. apply andb_false_iff. left. apply N.leb_gt. exact Hlow.
  - destruct (N.leb_spec 194 b) as [Hlead | Hlead]; cbn [andb].
    + intros _. apply andb_false_iff. right. apply N.leb_gt. lia.
    + destruct (N.leb_spec 224 b); cbn [andb]; [lia |].
      destruct (N.leb_spec 240 b); cbn [andb]; [lia | discriminate].
Qed.

(** C6. Requesting [SRV_STARTED] for a service whose status fact says it is
    started yields no command and reports a no-op (the message says the
    service is already started, or, when the rc script is not found, that
    the script cannot be found); [sysrc] with [SYSRC_SET] and no [overwrite]
    yields no command and reports a no-op when the parameter has a value. *)
Theorem started_and_set_are_noops
  (ServiceScript ServiceStatus : string -> option string -> bool)
  (SysrcFact : string -> option string -> option string)
  (srvname : string) (jail : option string) (command : Service.CommandArg)
  (environment : option (list string)) (verbose : bool)
  (parameter value : string) (sysrc_jail : option string) :
  ServiceStatus srvname jail = true ->
  opt_truthy (SysrcFact parameter sysrc_jail) = true ->
  Service.service ServiceScript ServiceStatus srvname jail Service.SRV_STARTED
                  command environment verbose
  = Noop (if ServiceScript srvname jail
          then "Service '" +:+ srvname +:+ "' already started"
          else "Cannot find rc(8) script '" +:+ srvname +:+ "'")
  /\ Sysrc.sysrc SysrcFact parameter value sysrc_jail Sysrc.SYSRC_SET false
     = Noop ("sysrc(8) parameter '" +:+ parameter +:+ "' already set").
Proof.
  intros Hstatus Hvalue. split.
  - unfold Service.service.
    destruct (ServiceScript srvname jail); simpl.
    + now rewrite Hstatus.
    + reflexivity.
  - unfold Sysrc.sysrc. now rewrite Hvalue.
Qed.

(** The docstring's service [beanstalkd], already running, and the
    docstring's parameter [beanstalkd_enable], already [YES]. *)
Lemma started_and_set_are_noops_witness :
  Service.service (fun _ _ => true) (fun _ _ => true) "beanstalkd" None
                  Service.SRV_STARTED Service.CommandNone None false
  = Noop "Service 'beanstalkd' already started"
  /\ Sysrc.sysrc (fun _ _ => Some "YES") "beanstalkd_enable" "YES" None
                 Sysrc.SYSRC_SET false
     = Noop "sysrc(8) parameter 'beanstalkd_enable' already set".
Proof.
  apply (started_and_set_are_noops
           (fun _ _ => true) (fun _ _ => true) (fun _ _ => Some "YES")
           "beanstalkd" None Service.CommandNone None false
           "beanstalkd_enable" "YES" None); reflexivity.
Defined.

(** C10. With state [SRV_CUSTOM] and a [str] command, the yielded command
    ends, after the quoted service name, with one quoted bit per character of
    the command string, in order: the bits hold strings of one character
    each, which joined are the command string, and there are [len(command)]
    of them.  So it is the command with the whole string as a single quoted
    bit only when the string has exactly one character. *)
Theorem custom_str_command_is_split_per_character
  (ServiceScript ServiceStatus : string -> option string -> bool)
  (srvname : string) (jail : option string) (s : string)
  (environment : option (list string)) (verbose : bool) :
  ServiceScript srvname jail = true ->
  AppJail.utf8_valid (AppJail.byte_codes s) = true ->
  let args := Service.service_prefix jail environment verbose in
  let yielded :=
    Service.service ServiceScript ServiceStatus srvname jail Service.SRV_CUSTOM
                    (Service.CommandStr s) environment verbose in
  exists characters : list string,
    yielded
    = Yield ((args ++ [QuoteString (QStr srvname)])
               ++ map (fun c => QuoteString (QStr c)) characters)
    /\ str_join characters = s
    /\ Forall one_character characters
    /\ length characters = str_len s
    /\ (yielded
        = Yield ((args ++ [QuoteString (QStr srvname)]) ++ [QuoteString (QStr s)])
        <-> str_len s = 1).
Proof.
  intros Hscript Hvalid args yielded.
  pose proof (utf8_valid_starts s Hvalid) as Hstart.
  assert (Hlen : length (iter_str s) = str_len s).
  { rewrite iter_str_length, Hstart. lia. }
  assert (Hrun :
    yielded
    = Yield ((args ++ [QuoteString (QStr srvname)])
               ++ map (fun c => QuoteString (QStr c)) (iter_str s))).
  { unfold yielded, Service.service. rewrite Hscript. reflexivity. }
  exists (iter_str s).
  split; [exact Hrun |].
  split; [apply iter_str_join |].
  split; [now apply iter_str_characters |].
  split; [exact Hlen |].
  rewrite Hrun. split.
  - intros Heq. injection Heq as Heq. apply app_inv_head in Heq.
    apply (f_equal (@length Bit)) in Heq. rewrite length_map, Hlen in Heq.
    exact Heq.
  - intros Hone. rewrite <- Hlen in Hone.
    pose proof (iter_str_join s) as Hjoin.
    destruct (iter_str s) as [| character [| other characters]];
      try discriminate Hone.
    unfold str_join in Hjoin. cbn [fold_right] in Hjoin.
    rewrite append_empty_r in Hjoin. now subst character.
Qed.

(** The docstring's example: [service("sopel", state=SRV_CUSTOM,
    command="configure")]. *)
Lemma custom_str_command_is_split_per_character_witness :
  let args := Service.service_prefix None None false in
  let yielded :=
    Service.service (fun _ _ => true) (fun _ _ => false) "sopel" None
                    Service.SRV_CUSTOM (Service.CommandStr "configure") None false in
  exists characters : list string,
    yielded
    = Yield ((args ++ [QuoteString (QStr "sopel")])
               ++ map (fun c => QuoteString (QStr c)) characters)
    /\ str_join characters = "configure"
    /\ Forall one_character characters
    /\ length characters = str_len "configure"
    /\ (yielded
        = Yield ((args ++ [QuoteString (QStr "sopel")])
                   ++ [QuoteString (QStr "configure")])
        <-> str_len "configure" = 1).
Proof.
  exact (custom_str_command_is_split_per_character
           (fun _ _ => true) (fun _ _ => false) "sopel" None "configure"
           None false eq_refl eq_refl).
Defined.

(** The docstring's example, written out: nine quoted bits. *)
Example custom_command_configure :
  Service.service (fun _ _ => true) (fun _ _ => false) "sopel" None
                  Service.SRV_CUSTOM (Service.CommandStr "configure") None false
  = Yield [Raw "service"; QuoteString (QStr "sopel");
           QuoteString (QStr "c"); QuoteString (QStr "o"); QuoteString (QStr "n");
           QuoteString (QStr "f"); QuoteString (QStr "i"); QuoteString (QStr "g");
           QuoteString (QStr "u"); QuoteString (QStr "r"); QuoteString (QStr "e")].
Proof. reflexivity. Qed.

(** A command of one accented character (two bytes, 195 and 169, one
    character) is one quoted bit, and a command of that character and an
    ASCII letter is two. *)
Example custom_command_accented :
  let e_acute := String (ascii_of_nat 195) (String (ascii_of_nat 169) EmptyString) in
  Service.service (fun _ _ => true) (fun _ _ => false) "sopel" None
                  Service.SRV_CUSTOM (Service.CommandStr e_acute) None false
  = Yield [Raw "service"; QuoteString (QStr "sopel"); QuoteString (QStr e_acute)]
  /\ Service.service (fun _ _ => true) (fun _ _ => false) "sopel" None
                     Service.SRV_CUSTOM (Service.CommandStr (e_acute +:+ "t")) None false
     = Yield [Raw "service"; QuoteString (QStr "sopel");
              QuoteString (QStr e_acute); QuoteString (QStr "t")].
Proof. split; reflexivity. Qed.

(** ** The connector *)

Import AppJail.

Lemma truthy_get_Some (o : option string) (u : string) :
  truthy_get o = Some u -> is_set o u.
Proof.
  destruct o as [[| c rest] |]; simpl; intros H; try discriminate.
  injection H as <-. split; [reflexivity | discriminate].
Qed.

Lemma truthy_get_None (o : option string) : truthy_get o = None -> not_set o.
Proof.
  destruct o as [[| c rest] |]; simpl; intros H; try discriminate.
  - now right.
  - now left.
Qed.

(** Both parts of the extraction are sub-mappings of the options given, they
    share no key, and together they are the options given. *)
Lemma extract_control_arguments_split (env : Env) (arguments : Arguments) :
  let parts := extract_control_arguments env arguments in
  parts.1 ##ₘ parts.2 /\ parts.1 ∪ parts.2 = arguments.
Proof.
  unfold extract_control_arguments; simpl. split.
  - apply map_disjoint_filter_complement.
  - apply map_filter_union_complement.
Qed.

Lemma extract_control_arguments_lookup (env : Env) (arguments : Arguments)
  (key : string) (v : Value) :
  let parts := extract_control_arguments env arguments in
  (parts.1 !! key = Some v <-> arguments !! key = Some v /\ key ∈ control_argument_keys env)
  /\ (parts.2 !! key = Some v <-> arguments !! key = Some v /\ key ∉ control_argument_keys env).
Proof.
  unfold extract_control_arguments; simpl.
  split; apply map_lookup_filter_Some.
Qed.

(** A control option is looked up in the extracted part as in the whole. *)
Lemma extract_control_arguments_keeps (env : Env) (arguments : Arguments)
  (key : string) :
  key ∈ control_argument_keys env ->
  (extract_control_arguments env arguments).1 !! key = arguments !! key.
Proof.
  intros Hkey. apply option_eq. intros v.
  rewrite (proj1 (extract_control_arguments_lookup env arguments key v)).
  tauto.
Qed.

(** What one call of [run_shell_command] does on a connected connector. *)
Lemma run_shell_command_run (env : Env) (host : HostData)
  (command : StringCommand) (print_output print_input : bool)
  (arguments : Arguments) (w : World) (jail : string) :
  self_jail w = Some jail ->
  let parts := extract_control_arguments env arguments in
  let issued :=
    jexec_args host jail
      (QuoteString (QCommand (make_unix_command_for_host env command parts.2))) in
  let child := run_local_process env issued parts.1 (fs w) in
  run_shell_command env host command print_output print_input arguments w
  = (Ret (bool_decide (child.1.1 ∈ success_exit_codes parts.1), child.1.2),
     mkWorld child.2 (Some jail)
             (trace w ++ [EvRun issued print_output print_input parts.1])).
Proof.
  intros Hjail. unfold run_shell_command, extract_control_arguments.
  unfold mbind, M_bind, get_self_jail. rewrite Hjail.
  unfold local_run_shell_command. cbn [fst snd].
  destruct (run_local_process _ _ _ _) as [[exit_code output] files].
  cbn [fst snd]. now rewrite Hjail.
Qed.

(** [test_run_shell_command]: [echo hoi] on [@appjail/not-a-jail], with
    [_stdin] and [_get_pty]. *)
Example run_shell_command_echo_hoi :
  run_shell_command (TestAppJail.test_env (TestAppJail.fake_process 0))
                    TestAppJail.not_a_jail [Raw "echo"; Raw "hoi"] true false
                    (<["_stdin" := VStr "hello"]> {[ "_get_pty" := VBool true ]})
                    (TestAppJail.connected ∅)
  = (Ret (true, mkOutput "" ""),
     mkWorld ∅ (Some "not-a-jail")
       [EvRun [Raw "appjail"; Raw "cmd"; Raw "jexec"; Raw "not-a-jail";
               Raw "sh"; Raw "-c";
               QuoteString
                 (QCommand [Raw "sh"; Raw "-c";
                            QuoteString (QCommand [Raw "echo"; Raw "hoi"])])]
              true false
              (<["_stdin" := VStr "hello"]> {[ "_get_pty" := VBool true ]})]).
Proof. vm_compute. reflexivity. Qed.

(** [test_run_shell_command_error]: exit code 1 and no success set. *)
Example run_shell_command_exit_1 :
  (run_shell_command (TestAppJail.test_env (TestAppJail.fake_process 1))
                     TestAppJail.not_a_jail [Raw "echo"; Raw "hoi"] false false ∅
                     (TestAppJail.connected ∅)).1
  = Ret (false, mkOutput "" "").
Proof. vm_compute. reflexivity. Qed.

(** Before [connect], [self.jail] is not there: nothing is run. *)
Lemma run_shell_command_unconnected (env : Env) (host : HostData)
  (command : StringCommand) (print_output print_input : bool)
  (arguments : Arguments) (w : World) :
  self_jail w = None ->
  run_shell_command env host command print_output print_input arguments w
  = (Raise (AttributeError "jail"), w).
Proof.
  intros Hjail. unfold run_shell_command, extract_control_arguments.
  unfold mbind, M_bind, get_self_jail. now rewrite Hjail.
Qed.

(** The flags [jexec_args] puts between the jail and [sh -c]. *)
Lemma jexec_args_shape (host : HostData) (jail : string) (quoted : Bit) :
  exists l_flag user_flag : StringCommand,
    jexec_args host jail quoted
    = [Raw "appjail"; Raw "cmd"; Raw "jexec"; Raw jail]
        ++ l_flag ++ user_flag ++ [Raw "sh"; Raw "-c"; quoted]
    /\ (l_flag = [Raw "-l"] /\ data_noclean host = true
        \/ l_flag = [] /\ data_noclean host = false)
    /\ ((exists u, is_set (data_jail_user host) u /\ user_flag = [Raw "-U"; Raw u])
        \/ (not_set (data_jail_user host)
            /\ exists u, is_set (data_host_user host) u /\ user_flag = [Raw "-u"; Raw u])
        \/ (not_set (data_jail_user host) /\ not_set (data_host_user host)
            /\ user_flag = [])).
Proof.
  unfold jexec_args.
  exists (if data_noclean host then [Raw "-l"] else []).
  destruct (truthy_get (data_jail_user host)) as [ju |] eqn:Hju;
    [| destruct (truthy_get (data_host_user host)) as [hu |] eqn:Hhu].
  - exists [Raw "-U"; Raw ju]. split; [| split].
    + destruct (data_noclean host); reflexivity.
    + destruct (data_noclean host); auto.
    + left. exists ju. split; [now apply truthy_get_Some | reflexivity].
  - exists [Raw "-u"; Raw hu]. split; [| split].
    + destruct (data_noclean host); reflexivity.
    + destruct (data_noclean host); auto.
    + right; left. split; [now apply truthy_get_None |].
      exists hu. split; [now apply truthy_get_Some | reflexivity].
  - exists []. split; [| split].
    + destruct (data_noclean host); reflexivity.
    + destruct (data_noclean host); auto.
    + right; right. repeat split; now try apply truthy_get_None.
Qed.

(** C1. On a connected connector, [run_shell_command] hands the local
    connector exactly one command, of the shape
    [appjail cmd jexec <jail> [-l] [-U <jail_user> | -u <host_user>] sh -c <quoted>],
    where the quoted bit wraps the synthesized inner command: [-l] is there
    exactly when the host's [noclean] is set, and the user flag is [-U] with
    the jail user when that is set, else [-u] with the host user when that is
    set, else absent. *)
Theorem run_shell_command_jexec_shape (env : Env) (host : HostData)
  (command : StringCommand) (print_output print_input : bool)
  (arguments : Arguments) (w : World) (jail : string) :
  self_jail w = Some jail ->
  exists (l_flag user_flag inner : StringCommand) (forwarded : Arguments),
    trace (run_shell_command env host command print_output print_input arguments w).2
    = trace w
        ++ [EvRun ([Raw "appjail"; Raw "cmd"; Raw "jexec"; Raw jail]
                     ++ l_flag ++ user_flag
                     ++ [Raw "sh"; Raw "-c"; QuoteString (QCommand inner)])
                  print_output print_input forwarded]
    /\ inner = make_unix_command_for_host env command
                 (extract_control_arguments env arguments).2
    /\ (l_flag = [Raw "-l"] /\ data_noclean host = true
        \/ l_flag = [] /\ data_noclean host = false)
    /\ ((exists u, is_set (data_jail_user host) u /\ user_flag = [Raw "-U"; Raw u])
        \/ (not_set (data_jail_user host)
            /\ exists u, is_set (data_host_user host) u /\ user_flag = [Raw "-u"; Raw u])
        \/ (not_set (data_jail_user host) /\ not_set (data_host_user host)
            /\ user_flag = [])).
Proof.
  intros Hjail.
  rewrite (run_shell_command_run env host command print_output print_input
             arguments w jail Hjail).
  cbn [snd trace].
  set (inner := make_unix_command_for_host env command
                  (extract_control_arguments env arguments).2).
  destruct (jexec_args_shape host jail (QuoteString (QCommand inner)))
    as (l_flag & user_flag & Hshape & Hl & Hu).
  exists l_flag, user_flag, inner, (extract_control_arguments env arguments).1.
  rewrite Hshape. auto.
Qed.

(** A host with [noclean], a jail user and a host user: [-l -U www]. *)
Lemma run_shell_command_jexec_shape_witness :
  exists (l_flag user_flag inner : StringCommand) (forwarded : Arguments),
    trace (run_shell_command
             (TestAppJail.test_env (TestAppJail.fake_process 0))
             (mkHostData "not-a-jail" true (Some "www") (Some "root") "")
             [Raw "echo"; Raw "hoi"] true false ∅
             (TestAppJail.connected ∅)).2
    = [] ++ [EvRun ([Raw "appjail"; Raw "cmd"; Raw "jexec"; Raw "not-a-jail"]
                      ++ l_flag ++ user_flag
                      ++ [Raw "sh"; Raw "-c"; QuoteString (QCommand inner)])
                   true false forwarded]
    /\ inner = TestAppJail.sh_c [Raw "echo"; Raw "hoi"]
                 (extract_control_arguments
                    (TestAppJail.test_env (TestAppJail.fake_process 0)) ∅).2
    /\ (l_flag = [Raw "-l"] /\ true = true \/ l_flag = [] /\ true = false)
    /\ ((exists u, is_set (Some "www") u /\ user_flag = [Raw "-U"; Raw u])
        \/ (not_set (Some "www")
            /\ exists u, is_set (Some "root") u /\ user_flag = [Raw "-u"; Raw u])
        \/ (not_set (Some "www") /\ not_set (Some "root") /\ user_flag = [])).
Proof.
  exact (run_shell_command_jexec_shape
           (TestAppJail.test_env (TestAppJail.fake_process 0))
           (mkHostData "not-a-jail" true (Some "www") (Some "root") "")
           [Raw "echo"; Raw "hoi"] true false ∅
           (TestAppJail.connected ∅) "not-a-jail" eq_refl).
Defined.

(** C3. Modelled from the spec (the local connector computes the status).
    On a connected connector whose extractor owns [_success_exit_codes],
    [run_shell_command] returns, without raising, the boolean
    "the child's exit code is in the success set of the options the caller
    gave", with the child's output; the success set is [{0}] when the caller
    gave none. *)
Theorem run_shell_command_success_mapping (env : Env) (host : HostData)
  (command : StringCommand) (print_output print_input : bool)
  (arguments : Arguments) (w : World) (jail : string) :
  self_jail w = Some jail ->
  "_success_exit_codes" ∈ control_argument_keys env ->
  let parts := extract_control_arguments env arguments in
  let issued :=
    jexec_args host jail
      (QuoteString (QCommand (make_unix_command_for_host env command parts.2))) in
  let child := run_local_process env issued parts.1 (fs w) in
  (run_shell_command env host command print_output print_input arguments w).1
  = Ret (bool_decide (child.1.1 ∈ success_exit_codes arguments), child.1.2)
  /\ (arguments !! "_success_exit_codes" = None ->
      success_exit_codes arguments = [0%Z]).
Proof.
  intros Hjail Hkey parts issued child. split.
  - rewrite (run_shell_command_run env host command print_output print_input
               arguments w jail Hjail).
    cbn [fst]. fold parts issued child.
    replace (success_exit_codes parts.1) with (success_exit_codes arguments);
      [reflexivity |].
    unfold success_exit_codes, parts.
    now rewrite extract_control_arguments_keeps.
  - intros Hnone. unfold success_exit_codes. now rewrite Hnone.
Qed.

(** [test_run_shell_command_success_exit_codes]: exit code 1 with
    [_success_exit_codes=[1]] is a success. *)
Lemma run_shell_command_success_mapping_witness :
  (run_shell_command (TestAppJail.test_env (TestAppJail.fake_process 1))
                     TestAppJail.not_a_jail [Raw "echo"; Raw "hoi"] false false
                     {[ "_success_exit_codes" := VInts [1%Z] ]}
                     (TestAppJail.connected ∅)).1
  = Ret (true, mkOutput "" "").
Proof.
  exact (proj1 (run_shell_command_success_mapping
                  (TestAppJail.test_env (TestAppJail.fake_process 1))
                  TestAppJail.not_a_jail [Raw "echo"; Raw "hoi"] false false
                  {[ "_success_exit_codes" := VInts [1%Z] ]}
                  (TestAppJail.connected ∅) "not-a-jail" eq_refl
                  ltac:(vm_compute; reflexivity))).
Defined.

(** C7, as amended. On a connected connector, [run_shell_command] splits the
    options it is given into the extracted control options (those whose name
    is in the extractor's key set) and the remaining options; the two parts
    share no name and together are the options given.  The options passed to
    the local connector's [run_shell_command] are exactly the extracted
    control options, and the options the inner command is synthesized with
    are exactly the remaining ones. *)
Theorem run_shell_command_forwards_extracted (env : Env) (host : HostData)
  (command : StringCommand) (print_output print_input : bool)
  (arguments : Arguments) (w : World) (jail : string) :
  self_jail w = Some jail ->
  let extracted := (extract_control_arguments env arguments).1 in
  let remainder := (extract_control_arguments env arguments).2 in
  trace (run_shell_command env host command print_output print_input arguments w).2
  = trace w
      ++ [EvRun (jexec_args host jail
                   (QuoteString
                      (QCommand (make_unix_command_for_host env command remainder))))
                print_output print_input extracted]
  /\ extracted ##ₘ remainder
  /\ extracted ∪ remainder = arguments
  /\ (forall key v, extracted !! key = Some v
        <-> arguments !! key = Some v /\ key ∈ control_argument_keys env)
  /\ (forall key v, remainder !! key = Some v
        <-> arguments !! key = Some v /\ key ∉ control_argument_keys env).
Proof.
  intros Hjail extracted remainder.
  rewrite (run_shell_command_run env host command print_output print_input
             arguments w jail Hjail).
  cbn [snd trace].
  destruct (extract_control_arguments_split env arguments) as [Hdisjoint Hunion].
  split; [reflexivity |].
  split; [exact Hdisjoint |].
  split; [exact Hunion |].
  split; intros key v; apply (extract_control_arguments_lookup env arguments key v).
Qed.

(** [test_run_shell_command] with one more option: of [_stdin] and [_sudo],
    [_stdin] goes to the local connector and [_sudo] into the inner
    command's synthesis. *)
Lemma run_shell_command_forwards_extracted_witness :
  let env := TestAppJail.test_env (TestAppJail.fake_process 0) in
  let arguments : Arguments := <["_stdin" := VStr "hello"]> {[ "_sudo" := VBool true ]} in
  let extracted := (extract_control_arguments env arguments).1 in
  let remainder := (extract_control_arguments env arguments).2 in
  trace (run_shell_command env TestAppJail.not_a_jail [Raw "echo"; Raw "hoi"]
                           true false arguments (TestAppJail.connected ∅)).2
  = [] ++ [EvRun (jexec_args TestAppJail.not_a_jail "not-a-jail"
                    (QuoteString
                       (QCommand (make_unix_command_for_host env
                                    [Raw "echo"; Raw "hoi"] remainder))))
                 true false extracted]
  /\ extracted ##ₘ remainder
  /\ extracted ∪ remainder = arguments
  /\ (forall key v, extracted !! key = Some v
        <-> arguments !! key = Some v /\ key ∈ control_argument_keys env)
  /\ (forall key v, remainder !! key = Some v
        <-> arguments !! key = Some v /\ key ∉ control_argument_keys env).
Proof.
  exact (run_shell_command_forwards_extracted
           (TestAppJail.test_env (TestAppJail.fake_process 0))
           TestAppJail.not_a_jail [Raw "echo"; Raw "hoi"] true false
           (<["_stdin" := VStr "hello"]> {[ "_sudo" := VBool true ]})
           (TestAppJail.connected ∅) "not-a-jail" eq_refl).
Defined.

(** C7 as stated fails: given [_stdin] and [_sudo], the local connector is
    passed [_stdin], the extracted option, and not the remaining [_sudo]. *)
Lemma inner_options_are_not_the_remainder :
  let env := TestAppJail.test_env (TestAppJail.fake_process 0) in
  let arguments : Arguments := <["_stdin" := VStr "hello"]> {[ "_sudo" := VBool true ]} in
  let remainder : Arguments := {[ "_sudo" := VBool true ]} in
  let passed : Arguments := {[ "_stdin" := VStr "hello" ]} in
  (extract_control_arguments env arguments).2 = remainder
  /\ trace (run_shell_command env TestAppJail.not_a_jail [Raw "echo"; Raw "hoi"]
                              true false arguments (TestAppJail.connected ∅)).2
     = [EvRun [Raw "appjail"; Raw "cmd"; Raw "jexec"; Raw "not-a-jail";
               Raw "sh"; Raw "-c";
               QuoteString
                 (QCommand (TestAppJail.sh_c [Raw "echo"; Raw "hoi"] remainder))]
              true false passed]
  /\ passed <> remainder.
Proof.
  cbv zeta. split; [| split].
  - vm_compute. reflexivity.
  - vm_compute. reflexivity.
  - intros Heq. apply (f_equal (fun m : Arguments => m !! "_stdin")) in Heq.
    vm_compute in Heq. discriminate.
Qed.

(** C4, as amended. [connect] first connects the local connector, then
    probes the jail by running [appjail status <jail>] with the controller's
    local shell ([pyinfra.local.shell]); the local connector is handed no
    command.  When the probe returns, [connect] returns and [self.jail]
    holds the jail.  When the probe raises [PyinfraError] with some message,
    [connect] raises [ConnectError] with that message; an exception of
    another class escapes as it is; and whenever the probe raises,
    [self.jail] is left as it was. *)
Theorem connect_probes_then_records (env : Env) (host : HostData) (w : World) :
  let probe := "appjail status " +:+ data_jail host in
  let answer := local_shell env probe (fs w) in
  let after := connect env host w in
  trace after.2 = trace w ++ [EvLocalConnect; EvShell probe]
  /\ fs after.2 = answer.2
  /\ match answer.1 with
     | Ret _ => after.1 = Ret tt /\ self_jail after.2 = Some (data_jail host)
     | Raise e =>
         self_jail after.2 = self_jail w
         /\ after.1 = Raise match e with
                            | PyinfraError message => ConnectError message
                            | other => other
                            end
     end.
Proof.
  cbv zeta.
  unfold connect, mbind, M_bind, log, try_except_PyinfraError, shell.
  cbn [fs self_jail trace].
  destruct (local_shell env _ (fs w)) as [[out | e] files]; cbn.
  - rewrite <- app_assoc. auto.
  - destruct e; cbn; rewrite <- app_assoc; auto.
Qed.

(** C4 as stated fails on two points.  First run, the jail [not-a-jail] of
    the tests: the probe is run by the local shell, and the local connector
    is handed nothing (the trace holds no command run through it).  Second
    run: the shell cannot be started and the local shell raises
    [FileNotFoundError]; [connect] raises that exception as it is, and not a
    [ConnectError]. *)
Lemma connect_probe_is_not_run_by_the_local_connector :
  let env := TestAppJail.test_env (TestAppJail.fake_process 0) in
  let no_shell :=
    mkEnv TestAppJail.control_keys TestAppJail.sh_c
          (fun _ files => (Raise (FileNotFoundError "/bin/sh"), files))
          (TestAppJail.fake_process 0) (fun _ => "__tempfile__")
          TestAppJail.fake_read TestAppJail.fake_sink_open
          TestAppJail.fake_sink_write in
  let probed := connect env TestAppJail.not_a_jail (mkWorld ∅ None []) in
  let failed := connect no_shell TestAppJail.not_a_jail (mkWorld ∅ None []) in
  (probed.1 = Ret tt
   /\ trace probed.2 = [EvLocalConnect; EvShell "appjail status not-a-jail"]
   /\ Forall (fun ev =>
                forall command print_output print_input arguments,
                  ev <> EvRun command print_output print_input arguments)
             (trace probed.2))
  /\ (failed.1 = Raise (FileNotFoundError "/bin/sh")
      /\ forall message, failed.1 <> Raise (ConnectError message)).
Proof.
  cbv zeta. split; [split; [| split] | split].
  - vm_compute. reflexivity.
  - vm_compute. reflexivity.
  - vm_compute. repeat constructor; discriminate.
  - vm_compute. reflexivity.
  - intros message. vm_compute. discriminate.
Qed.

(** [test_connect_all_error]: the jail [a-broken-jail] does not exist. *)
Example connect_broken_jail :
  connect (TestAppJail.test_env (TestAppJail.fake_process 0))
          (mkHostData "a-broken-jail" false None None "")
          (mkWorld ∅ None [])
  = (Raise (ConnectError "Invalid command: appjail status a-broken-jail"),
     mkWorld ∅ None [EvLocalConnect; EvShell "appjail status a-broken-jail"]).
Proof. vm_compute. reflexivity. Qed.

(** [test_connect_host]: the jail [not-a-jail] exists. *)
Example connect_not_a_jail :
  connect (TestAppJail.test_env (TestAppJail.fake_process 0))
          TestAppJail.not_a_jail (mkWorld ∅ None [])
  = (Ret tt,
     mkWorld ∅ (Some "not-a-jail")
             [EvLocalConnect; EvShell "appjail status not-a-jail"]).
Proof. vm_compute. reflexivity. Qed.

(** ** Reading text *)

Example utf8_valid_accepts :
  utf8_valid [104; 105]%N = true
  /\ utf8_valid [195; 169]%N = true
  /\ utf8_valid [226; 130; 172]%N = true
  /\ utf8_valid [240; 157; 132; 158]%N = true.
Proof. repeat split. Qed.

Example utf8_valid_refuses :
  utf8_valid [255]%N = false
  /\ utf8_valid [192; 128]%N = false
  /\ utf8_valid [226; 130]%N = false
  /\ utf8_valid [237; 160; 128]%N = false
  /\ utf8_valid [244; 144; 128; 128]%N = false.
Proof. repeat split. Qed.

Example universal_newlines_translates :
  universal_newlines
    ("a" +:+ String CR (String LF ("b" +:+ String CR ("c" +:+ String LF EmptyString))))
  = "a" +:+ String LF ("b" +:+ String LF ("c" +:+ String LF EmptyString)).
Proof. reflexivity. Qed.

Lemma utf8_valid_ascii (bs : list N) :
  Forall (fun b => (b < 128)%N) bs -> utf8_valid bs = true.
Proof.
  induction 1 as [| b rest Hb _ IH]; simpl.
  - reflexivity.
  - apply N.ltb_lt in Hb. now rewrite Hb.
Qed.

Lemma universal_newlines_without_CR (s : string) :
  Forall (fun c => c <> CR) (list_ascii_of_string s) -> universal_newlines s = s.
Proof.
  induction s as [| c rest IH]; simpl; intros Hall.
  - reflexivity.
  - inversion Hall as [| ? ? Hc Hrest]; subst.
    apply Ascii.eqb_neq in Hc. rewrite Hc. now rewrite IH.
Qed.

(** Text of ASCII characters without carriage returns is read as it is. *)
Lemma read_text_plain (s : string) :
  Forall (fun c => (N_of_ascii c < 128)%N /\ c <> CR) (list_ascii_of_string s) ->
  read_text s = Ret s.
Proof.
  intros Hall. unfold read_text, byte_codes.
  rewrite utf8_valid_ascii, universal_newlines_without_CR; [reflexivity | |].
  - eapply Forall_impl; [exact Hall |]. now intros c [_ Hc].
  - apply List.Forall_map. eapply Forall_impl; [exact Hall |]. now intros c [Hc _].
Qed.

(** ** File transfer *)

Lemma os_remove_absent (path : string) (w : World) :
  fs (os_remove path w).2 !! path = None.
Proof.
  unfold os_remove. destruct (fs w !! path) eqn:Hpath; cbn [snd fs].
  - apply lookup_delete_eq.
  - exact Hpath.
Qed.

(** Whatever the body of the [try] does, the file removed in the [finally]
    is gone afterwards. *)
Lemma try_finally_remove_absent {A : Type} (body : M A) (path : string) (w : World) :
  fs (try_finally body (os_remove path) w).2 !! path = None.
Proof.
  unfold try_finally. destruct (body w) as [r w1].
  pose proof (os_remove_absent path w1) as Hgone.
  destruct (os_remove path w1) as [[[] | e] w2]; exact Hgone.
Qed.

Lemma check_status_fs (host : HostData) (what remote_filename : string)
  (print_output : bool) (result : bool * CommandOutput) (w : World) :
  fs (check_status host what remote_filename print_output result w).2 = fs w.
Proof.
  unfold check_status. destruct result as [[|] output]; cbn [negb].
  - destruct print_output; reflexivity.
  - reflexivity.
Qed.

(** A method that creates its staging file with [mkstemp], works inside
    [try ... finally: os.remove(...)] and then only checks the status leaves
    no staging file behind. *)
Lemma staged_call_removes_temp (env : Env) (host : HostData)
  (body : string -> M (bool * CommandOutput)) (what remote_filename : string)
  (print_output : bool) (w : World) :
  fs ((temp_filename ← mkstemp env ;
       result ← try_finally (body temp_filename) (os_remove temp_filename) ;
       check_status host what remote_filename print_output result) w).2
    !! mkstemp_name env (fs w) = None.
Proof.
  unfold mbind, M_bind, mkstemp.
  set (tmp := mkstemp_name env (fs w)).
  set (w1 := mkWorld _ _ _).
  pose proof (try_finally_remove_absent (body tmp) tmp w1) as Hgone.
  destruct (try_finally (body tmp) (os_remove tmp) w1) as [[result | e] w2].
  - rewrite check_status_fs. exact Hgone.
  - exact Hgone.
Qed.

(** C2. [mkstemp] creates the staging file, and after [put_file] and after
    [get_file], however the call ends (it returns, it raises the transfer
    error, or an exception of the staging steps, the probe or the removal
    escapes), that staging file does not exist. *)
Theorem staging_file_is_removed (env : Env) (host : HostData)
  (filename_or_io : FileOrIO) (remote_filename : string)
  (print_output print_input : bool) (w : World) :
  fs (mkstemp env w).2 !! mkstemp_name env (fs w) = Some EmptyString
  /\ fs (put_file env host filename_or_io remote_filename print_output print_input w).2
       !! mkstemp_name env (fs w) = None
  /\ fs (get_file env host remote_filename filename_or_io print_output print_input w).2
       !! mkstemp_name env (fs w) = None.
Proof.
  split; [apply lookup_insert_eq | split].
  - apply (staged_call_removes_temp env host
             (fun temp_filename =>
                put_file_body env temp_filename filename_or_io remote_filename
                              print_output print_input)).
  - apply (staged_call_removes_temp env host
             (fun temp_filename =>
                get_file_body env temp_filename remote_filename filename_or_io
                              print_output print_input)).
Qed.

(** The [try] block of [put_file] when the source can be read and the root
    probe answers: the staging file is written, the root is probed, the copy
    is run, in this order, and the block returns the copy's status and
    output. *)
Lemma put_file_body_run (env : Env) (temp_filename : string)
  (filename_or_io : FileOrIO) (remote_filename : string)
  (print_output print_input : bool) (w : World)
  (jail : string) (data : ReadData) (root : string) (files files' : FS)
  (exit_code : Z) (output : CommandOutput) :
  self_jail w = Some jail ->
  source_read env filename_or_io (fs w) = Ret data ->
  local_shell env (root_probe jail) (<[temp_filename := to_bytes data]> (fs w))
  = (Ret root, files) ->
  let copy := [Raw "cp"; Raw temp_filename; Raw (root +:+ "/" +:+ remote_filename)] in
  run_local_process env copy ∅ files = ((exit_code, output), files') ->
  put_file_body env temp_filename filename_or_io remote_filename
                print_output print_input w
  = (Ret (bool_decide (exit_code ∈ [0%Z]), output),
     mkWorld files' (Some jail)
             (trace w ++ [EvWriteTemp temp_filename (to_bytes data);
                          EvShell (root_probe jail);
                          EvRun copy print_output print_input ∅])).
Proof.
  intros Hjail Hread Hprobe copy Hcopy.
  unfold put_file_body, mbind, M_bind, read_source. rewrite Hread.
  unfold write_file, get_self_jail, shell. world_simpl.
  rewrite Hjail. world_simpl.
  change ("appjail cmd local " +:+ jail +:+ " pwd") with (root_probe jail).
  rewrite Hprobe.
  unfold local_run_shell_command. world_simpl.
  fold copy. rewrite Hcopy.
  rewrite <- !app_assoc. reflexivity.
Qed.

(** The [try] block of [get_file] when the root probe answers and the
    staging file can be read back and written to the destination: the root
    is probed, the copy is run, the staging file is read as text and written
    to the destination, in this order, and the block returns the copy's
    status and output. *)
Lemma get_file_body_run (env : Env) (temp_filename remote_filename : string)
  (filename_or_io : FileOrIO) (print_output print_input : bool) (w : World)
  (jail root : string) (files2 files3 files4 files5 : FS)
  (exit_code : Z) (output : CommandOutput) (opened content : string) :
  self_jail w = Some jail ->
  local_shell env (root_probe jail) (fs w) = (Ret root, files2) ->
  let copy := [Raw "cp"; Raw (root +:+ "/" +:+ remote_filename); Raw temp_filename] in
  run_local_process env copy ∅ files2 = ((exit_code, output), files3) ->
  files3 !! temp_filename = Some opened ->
  sink_open env filename_or_io files3 = (Ret tt, files4) ->
  files4 !! temp_filename = Some content ->
  utf8_valid (byte_codes content) = true ->
  sink_write env filename_or_io (universal_newlines content) files4 = (Ret tt, files5) ->
  get_file_body env temp_filename remote_filename filename_or_io
                print_output print_input w
  = (Ret (bool_decide (exit_code ∈ [0%Z]), output),
     mkWorld files5 (Some jail)
             (trace w ++ [EvShell (root_probe jail);
                          EvRun copy print_output print_input ∅;
                          EvSinkWrite filename_or_io (universal_newlines content)])).
Proof.
  intros Hjail Hprobe copy Hcopy Hopened Hsink Hcontent Hvalid Hwrite.
  unfold get_file_body, mbind, M_bind, get_self_jail. rewrite Hjail.
  unfold shell.
  change ("appjail cmd local " +:+ jail +:+ " pwd") with (root_probe jail).
  rewrite Hprobe.
  unfold local_run_shell_command. world_simpl.
  fold copy. rewrite Hcopy.
  unfold open_file. world_simpl. rewrite Hopened.
  unfold open_sink. world_simpl. rewrite Hsink.
  unfold read_opened, read_text. world_simpl. rewrite Hcontent.
  cbn [from_option id]. rewrite Hvalid.
  unfold write_sink. world_simpl. rewrite Hwrite.
  unfold mret, M_ret. rewrite Hjail, <- !app_assoc. reflexivity.
Qed.

(** What [try ... finally: os.remove(temp_filename)] and the status check
    make of a [try] block that returned, when the staging file is still
    there to be removed. *)
Lemma finish_staged_call (host : HostData) (body : M (bool * CommandOutput))
  (temp_filename what remote_filename : string) (print_output : bool)
  (w : World) (status : bool) (output : CommandOutput) (w' : World) :
  body w = (Ret (status, output), w') ->
  is_Some (fs w' !! temp_filename) ->
  (result ← try_finally body (os_remove temp_filename) ;
   check_status host what remote_filename print_output result) w
  = (if status then Ret true else Raise (IOError (stderr output)),
     mkWorld (delete temp_filename (fs w')) (self_jail w')
             (trace w' ++ [EvRemove temp_filename]
                ++ if status && print_output
                   then [EvEcho (print_prefix host +:+ what +:+ remote_filename)]
                   else [])).
Proof.
  intros Hbody [held Hheld].
  unfold mbind, M_bind, try_finally, os_remove. rewrite Hbody, Hheld.
  unfold check_status. destruct status; cbn [negb andb].
  - destruct print_output; unfold mbind, M_bind, mret, M_ret, echo, log;
      world_simpl; rewrite <- ?app_assoc; reflexivity.
  - reflexivity.
Qed.

(** A whole [put_file] call that reaches the status check. *)
Lemma put_file_run (env : Env) (host : HostData)
  (filename_or_io : FileOrIO) (remote_filename : string)
  (print_output print_input : bool) (w : World)
  (jail : string) (data : ReadData) (root : string) (files files' : FS)
  (exit_code : Z) (output : CommandOutput) :
  self_jail w = Some jail ->
  let temp_filename := mkstemp_name env (fs w) in
  let created := <[temp_filename := EmptyString]> (fs w) in
  source_read env filename_or_io created = Ret data ->
  local_shell env (root_probe jail) (<[temp_filename := to_bytes data]> created)
  = (Ret root, files) ->
  let copy := [Raw "cp"; Raw temp_filename; Raw (root +:+ "/" +:+ remote_filename)] in
  run_local_process env copy ∅ files = ((exit_code, output), files') ->
  is_Some (files' !! temp_filename) ->
  let status := bool_decide (exit_code ∈ [0%Z]) in
  put_file env host filename_or_io remote_filename print_output print_input w
  = (if status then Ret true else Raise (IOError (stderr output)),
     mkWorld (delete temp_filename files') (Some jail)
             (trace w
                ++ [EvMkstemp temp_filename;
                    EvWriteTemp temp_filename (to_bytes data);
                    EvShell (root_probe jail);
                    EvRun copy print_output print_input ∅;
                    EvRemove temp_filename]
                ++ if status && print_output
                   then [EvEcho (print_prefix host +:+ "file uploaded to jail: "
                                   +:+ remote_filename)]
                   else [])).
Proof.
  intros Hjail temp_filename created Hread Hprobe copy Hcopy Hheld status.
  unfold put_file. unfold mbind at 1, M_bind at 1. unfold mkstemp.
  fold temp_filename. fold created.
  set (w1 := mkWorld created (self_jail w) (trace w ++ [EvMkstemp temp_filename])).
  rewrite (finish_staged_call host _ temp_filename _ remote_filename print_output
             w1 status output _
             (put_file_body_run env temp_filename filename_or_io remote_filename
                print_output print_input w1 jail data root files files'
                exit_code output Hjail Hread Hprobe Hcopy)
             Hheld).
  unfold w1. world_simpl. rewrite <- !app_assoc. reflexivity.
Qed.

(** A whole [get_file] call that reaches the status check. *)
Lemma get_file_run (env : Env) (host : HostData)
  (remote_filename : string) (filename_or_io : FileOrIO)
  (print_output print_input : bool) (w : World)
  (jail root : string) (files2 files3 files4 files5 : FS)
  (exit_code : Z) (output : CommandOutput) (opened content : string) :
  self_jail w = Some jail ->
  let temp_filename := mkstemp_name env (fs w) in
  local_shell env (root_probe jail) (<[temp_filename := EmptyString]> (fs w))
  = (Ret root, files2) ->
  let copy := [Raw "cp"; Raw (root +:+ "/" +:+ remote_filename); Raw temp_filename] in
  run_local_process env copy ∅ files2 = ((exit_code, output), files3) ->
  files3 !! temp_filename = Some opened ->
  sink_open env filename_or_io files3 = (Ret tt, files4) ->
  files4 !! temp_filename = Some content ->
  utf8_valid (byte_codes content) = true ->
  sink_write env filename_or_io (universal_newlines content) files4 = (Ret tt, files5) ->
  is_Some (files5 !! temp_filename) ->
  let status := bool_decide (exit_code ∈ [0%Z]) in
  get_file env host remote_filename filename_or_io print_output print_input w
  = (if status then Ret true else Raise (IOError (stderr output)),
     mkWorld (delete temp_filename files5) (Some jail)
             (trace w
                ++ [EvMkstemp temp_filename;
                    EvShell (root_probe jail);
                    EvRun copy print_output print_input ∅;
                    EvSinkWrite filename_or_io (universal_newlines content);
                    EvRemove temp_filename]
                ++ if status && print_output
                   then [EvEcho (print_prefix host +:+ "file downloaded from jail: "
                                   +:+ remote_filename)]
                   else [])).
Proof.
  intros Hjail temp_filename Hprobe copy Hcopy Hopened Hsink Hcontent Hvalid
         Hwrite Hheld status.
  unfold get_file. unfold mbind at 1, M_bind at 1. unfold mkstemp.
  fold temp_filename.
  set (w1 := mkWorld (<[temp_filename := EmptyString]> (fs w)) (self_jail w)
                     (trace w ++ [EvMkstemp temp_filename])).
  rewrite (finish_staged_call host _ temp_filename _ remote_filename print_output
             w1 status output _
             (get_file_body_run env temp_filename remote_filename filename_or_io
                print_output print_input w1 jail root files2 files3 files4 files5
                exit_code output opened content
                Hjail Hprobe Hcopy Hopened Hsink Hcontent Hvalid Hwrite)
             Hheld).
  unfold w1. world_simpl. rewrite <- !app_assoc. reflexivity.
Qed.

(** C5, as amended. A [put_file] or [get_file] call that reaches the status
    check (the staging steps, the root probe and the removal of the staging
    file raise nothing) raises [IOError] carrying the copy's captured stderr
    when the copy's exit code is not in the success set [{0}], and returns
    [True] when it is; so such a call raises that error if and only if the
    copy did not succeed. *)
Theorem transfer_error_iff_copy_failed (env : Env) (host : HostData) :
  (forall (filename_or_io : FileOrIO) (remote_filename : string)
          (print_output print_input : bool) (w : World)
          (jail : string) (data : ReadData) (root : string) (files files' : FS)
          (exit_code : Z) (output : CommandOutput),
     self_jail w = Some jail ->
     let temp_filename := mkstemp_name env (fs w) in
     let created := <[temp_filename := EmptyString]> (fs w) in
     source_read env filename_or_io created = Ret data ->
     local_shell env (root_probe jail) (<[temp_filename := to_bytes data]> created)
     = (Ret root, files) ->
     run_local_process env
       [Raw "cp"; Raw temp_filename; Raw (root +:+ "/" +:+ remote_filename)] ∅ files
     = ((exit_code, output), files') ->
     is_Some (files' !! temp_filename) ->
     (put_file env host filename_or_io remote_filename print_output print_input w).1
     = if bool_decide (exit_code ∈ [0%Z]) then Ret true
       else Raise (IOError (stderr output)))
  /\ (forall (remote_filename : string) (filename_or_io : FileOrIO)
             (print_output print_input : bool) (w : World)
             (jail root : string) (files2 files3 files4 files5 : FS)
             (exit_code : Z) (output : CommandOutput) (opened content : string),
        self_jail w = Some jail ->
        let temp_filename := mkstemp_name env (fs w) in
        local_shell env (root_probe jail) (<[temp_filename := EmptyString]> (fs w))
        = (Ret root, files2) ->
        run_local_process env
          [Raw "cp"; Raw (root +:+ "/" +:+ remote_filename); Raw temp_filename] ∅ files2
        = ((exit_code, output), files3) ->
        files3 !! temp_filename = Some opened ->
        sink_open env filename_or_io files3 = (Ret tt, files4) ->
        files4 !! temp_filename = Some content ->
        utf8_valid (byte_codes content) = true ->
        sink_write env filename_or_io (universal_newlines content) files4
        = (Ret tt, files5) ->
        is_Some (files5 !! temp_filename) ->
        (get_file env host remote_filename filename_or_io print_output print_input w).1
        = if bool_decide (exit_code ∈ [0%Z]) then Ret true
          else Raise (IOError (stderr output))).
Proof.
  split.
  - intros until output. intros Hjail temp_filename created Hread Hprobe Hcopy Hheld.
    now rewrite (put_file_run env host filename_or_io remote_filename print_output
                   print_input w jail data root files files' exit_code output
                   Hjail Hread Hprobe Hcopy Hheld).
  - intros until content.
    intros Hjail temp_filename Hprobe Hcopy Hopened Hsink Hcontent Hvalid Hwrite Hheld.
    now rewrite (get_file_run env host remote_filename filename_or_io print_output
                   print_input w jail root files2 files3 files4 files5 exit_code
                   output opened content
                   Hjail Hprobe Hcopy Hopened Hsink Hcontent Hvalid Hwrite Hheld).
Qed.

(** [test_put_file], and a [get_file] of a file the jail does not have. *)
Lemma transfer_error_iff_copy_failed_witness :
  (put_file (TestAppJail.test_env TestAppJail.cp_process) TestAppJail.not_a_jail
            (IOObject 0) "not-another-file" true false (TestAppJail.connected ∅)).1
  = Ret true
  /\ (get_file (TestAppJail.test_env TestAppJail.cp_process) TestAppJail.not_a_jail
               "missing" (IOObject 0) true false (TestAppJail.connected ∅)).1
     = Raise (IOError "cp: /not-a-jail/missing: No such file or directory").
Proof.
  split.
  - eapply (proj1 (transfer_error_iff_copy_failed
                     (TestAppJail.test_env TestAppJail.cp_process)
                     TestAppJail.not_a_jail)
                  (IOObject 0) "not-another-file" true false
                  (TestAppJail.connected ∅) "not-a-jail" _ _ _ _
                  0%Z (mkOutput "" ""));
      [reflexivity | reflexivity | reflexivity | reflexivity
      | vm_compute; eexists; reflexivity].
  - eapply (proj2 (transfer_error_iff_copy_failed
                     (TestAppJail.test_env TestAppJail.cp_process)
                     TestAppJail.not_a_jail)
                  "missing" (IOObject 0) true false
                  (TestAppJail.connected ∅) "not-a-jail" _ _ _ _ _
                  1%Z (mkOutput "" "cp: /not-a-jail/missing: No such file or directory")
                  "" "");
      [reflexivity | reflexivity | reflexivity | reflexivity | reflexivity
      | reflexivity | reflexivity | reflexivity
      | vm_compute; eexists; reflexivity].
Defined.

(** C5 as stated fails for [get_file]: the copy succeeds (exit code 0) and
    the call does not return [True], because an exception of the steps that
    follow the copy escapes before the status is looked at.  First run: the
    destination cannot be opened ([FileNotFoundError]).  Second run: the
    copied file holds the byte 255, and reading the staging file back as
    UTF-8 text raises [UnicodeDecodeError]. *)
Lemma get_file_raises_though_copy_succeeded :
  let env := TestAppJail.test_env TestAppJail.cp_process in
  let copy (name : string) : StringCommand :=
    [Raw "cp"; Raw ("/not-a-jail/" +:+ name); Raw "__tempfile__"] in
  let text : FS := {[ "/not-a-jail/motd" := "hello" ]} in
  let binary : FS :=
    {[ "/not-a-jail/image.bin" := String (ascii_of_nat 255) EmptyString ]} in
  let unopened :=
    get_file env TestAppJail.not_a_jail "motd" (Filename "") false false
             (TestAppJail.connected text) in
  let undecoded :=
    get_file env TestAppJail.not_a_jail "image.bin" (IOObject 0) false false
             (TestAppJail.connected binary) in
  ((run_local_process env (copy "motd") ∅ (<["__tempfile__" := EmptyString]> text)).1
   = (0%Z, mkOutput "" "")
   /\ trace unopened.2
      = [EvMkstemp "__tempfile__"; EvShell "appjail cmd local not-a-jail pwd";
         EvRun (copy "motd") false false ∅; EvRemove "__tempfile__"]
   /\ unopened.1 = Raise (FileNotFoundError "")
   /\ unopened.1 <> Ret true)
  /\ ((run_local_process env (copy "image.bin") ∅
                         (<["__tempfile__" := EmptyString]> binary)).1
      = (0%Z, mkOutput "" "")
      /\ trace undecoded.2
         = [EvMkstemp "__tempfile__"; EvShell "appjail cmd local not-a-jail pwd";
            EvRun (copy "image.bin") false false ∅; EvRemove "__tempfile__"]
      /\ undecoded.1 = Raise UnicodeDecodeError
      /\ undecoded.1 <> Ret true).
Proof.
  cbv zeta. repeat split; vm_compute; solve [reflexivity | discriminate].
Qed.

(** C8. A [put_file] call on a connected connector whose source can be read
    and whose root probe answers does, in this order: create the staging
    file, write the source's content to it (the bytes the source holds, or
    the text it holds, encoded), probe the jail's root with
    [appjail cmd local <jail> pwd] (the probe runs on the files in which the
    staging file holds that content), and run
    [cp <staging file> <root>/<remote>] through the local connector. *)
Theorem put_file_writes_probes_copies (env : Env) (host : HostData)
  (filename_or_io : FileOrIO) (remote_filename : string)
  (print_output print_input : bool) (w : World)
  (jail : string) (data : ReadData) (content : string) (root : string) (files : FS) :
  self_jail w = Some jail ->
  let temp_filename := mkstemp_name env (fs w) in
  let created := <[temp_filename := EmptyString]> (fs w) in
  source_read env filename_or_io created = Ret data ->
  data = DataStr content \/ data = DataBytes content ->
  local_shell env ("appjail cmd local " +:+ jail +:+ " pwd")
              (<[temp_filename := content]> created)
  = (Ret root, files) ->
  exists rest : list Event,
    trace (put_file env host filename_or_io remote_filename
                    print_output print_input w).2
    = trace w
        ++ [EvMkstemp temp_filename;
            EvWriteTemp temp_filename content;
            EvShell ("appjail cmd local " +:+ jail +:+ " pwd");
            EvRun [Raw "cp"; Raw temp_filename;
                   Raw (root +:+ "/" +:+ remote_filename)]
                  print_output print_input ∅]
        ++ rest.
Proof.
  intros Hjail temp_filename created Hread Hdata Hprobe.
  assert (Hbytes : to_bytes data = content) by (destruct Hdata; now subst data).
  rewrite <- Hbytes in Hprobe |- *.
  change ("appjail cmd local " +:+ jail +:+ " pwd") with (root_probe jail) in *.
  set (copy := [Raw "cp"; Raw temp_filename; Raw (root +:+ "/" +:+ remote_filename)]).
  destruct (run_local_process env copy ∅ files) as [[exit_code output] files'] eqn:Hcopy.
  unfold put_file. unfold mbind at 1, M_bind at 1. unfold mkstemp.
  fold temp_filename. fold created.
  set (w1 := mkWorld created (self_jail w) (trace w ++ [EvMkstemp temp_filename])).
  pose proof (put_file_body_run env temp_filename filename_or_io remote_filename
                print_output print_input w1 jail data root files files'
                exit_code output Hjail Hread Hprobe Hcopy) as Hbody.
  unfold mbind, M_bind, try_finally, os_remove. rewrite Hbody. world_simpl.
  destruct (files' !! temp_filename) as [held |].
  - unfold check_status.
    destruct (bool_decide (exit_code ∈ [0%Z])); cbn [negb].
    + destruct print_output; unfold mbind, M_bind, mret, M_ret, echo, log;
        unfold w1; world_simpl; rewrite <- !app_assoc; cbn [app];
        eexists; reflexivity.
    + unfold raise, w1. world_simpl. rewrite <- !app_assoc. cbn [app].
      eexists; reflexivity.
  - unfold w1. world_simpl. rewrite <- !app_assoc. cbn [app].
    exists []. reflexivity.
Qed.

(** [test_put_file], with a source file that holds [hello]: with root
    [/not-a-jail] and destination [not-another-file], the copy goes to
    [/not-a-jail/not-another-file]. *)
Lemma put_file_writes_probes_copies_witness :
  let w := TestAppJail.connected {[ "not-a-file" := "hello" ]} in
  exists rest : list Event,
    trace (put_file (TestAppJail.test_env TestAppJail.cp_process)
                    TestAppJail.not_a_jail (Filename "not-a-file")
                    "not-another-file" true false w).2
    = [] ++ [EvMkstemp "__tempfile__";
             EvWriteTemp "__tempfile__" "hello";
             EvShell "appjail cmd local not-a-jail pwd";
             EvRun [Raw "cp"; Raw "__tempfile__";
                    Raw "/not-a-jail/not-another-file"]
                   true false ∅]
         ++ rest.
Proof.
  exact (put_file_writes_probes_copies
           (TestAppJail.test_env TestAppJail.cp_process) TestAppJail.not_a_jail
           (Filename "not-a-file") "not-another-file" true false
           (TestAppJail.connected {[ "not-a-file" := "hello" ]})
           "not-a-jail" (DataBytes "hello") "hello" "/not-a-jail"
           (<["__tempfile__" := "hello"]>
              (<["__tempfile__" := EmptyString]> {[ "not-a-file" := "hello" ]}))
           eq_refl eq_refl (or_intror eq_refl) eq_refl).
Defined.



(** * Further properties *)

(** ** The operation [service] *)

Lemma raw_words_app (a b : StringCommand) :
  raw_words (a ++ b) = raw_words a ++ raw_words b.
Proof. unfold raw_words. apply flat_map_app. Qed.

(** The loop over [environment] appends, in order, [-E] and the quoted
    variable for each variable. *)
Lemma extend_environment_flat_map (args : StringCommand) (environment : list string) :
  Service.extend_environment args environment
  = args ++ flat_map (fun env_var => [Raw "-E"; QuoteString (QStr env_var)]) environment.
Proof.
  unfold Service.extend_environment.
  revert args. induction environment as [| env_var rest IH]; intros args; simpl.
  - now rewrite app_nil_r.
  - rewrite IH, <- app_assoc. reflexivity.
Qed.

Lemma service_prefix_shape (jail : option string) (environment : option (list string))
  (verbose : bool) :
  Service.service_prefix jail environment verbose
  = [Raw "service"]
      ++ (if verbose then [Raw "-v"] else [])
      ++ match jail with
         | Some j => [Raw "-j"; QuoteString (QStr j)]
         | None => []
         end
      ++ flat_map (fun env_var => [Raw "-E"; QuoteString (QStr env_var)])
                  (default [] environment).
Proof.
  unfold Service.service_prefix.
  destruct environment as [env |]; cbn [default from_option id];
    [rewrite extend_environment_flat_map |];
    destruct verbose, jail; simpl; rewrite ?app_nil_r; reflexivity.
Qed.

Lemma raw_words_environment (environment : list string) :
  Forall (fun word => word = "-E")
    (raw_words (flat_map (fun env_var => [Raw "-E"; QuoteString (QStr env_var)])
                         environment)).
Proof.
  induction environment as [| env_var rest IH]; simpl.
  - constructor.
  - constructor; [reflexivity | exact IH].
Qed.

Lemma raw_words_custom_bits (command : Service.CommandArg) :
  raw_words (Service.custom_bits command) = [].
Proof.
  destruct command as [| s | l]; try reflexivity.
  unfold Service.custom_bits. induction (iter_str s) as [| c rest IH]; simpl; auto.
Qed.

Lemma raw_words_service_prefix (jail : option string)
  (environment : option (list string)) (verbose : bool) :
  Forall (fun word => In word service_words)
         (raw_words (Service.service_prefix jail environment verbose)).
Proof.
  rewrite service_prefix_shape, !raw_words_app.
  pose proof (raw_words_environment (default [] environment)) as Henv.
  repeat apply Forall_app_2;
    try (eapply Forall_impl; [exact Henv | intros word ->; simpl; tauto]);
    destruct verbose, jail; simpl; words_in.
Qed.

(** X1. [service] yields no command exactly in three cases: the rc script of
    the service is not found; the service is to be started and its status
    says it runs; the service is to be stopped and its status says it does
    not run. *)
Theorem service_noop_iff
  (ServiceScript ServiceStatus : string -> option string -> bool)
  (srvname : string) (jail : option string) (state : Service.ServiceStates)
  (command : Service.CommandArg) (environment : option (list string))
  (verbose : bool) :
  (exists message,
     Service.service ServiceScript ServiceStatus srvname jail state command
                     environment verbose = Noop message)
  <-> ServiceScript srvname jail = false
      \/ (state = Service.SRV_STARTED /\ ServiceStatus srvname jail = true)
      \/ (state = Service.SRV_STOPPED /\ ServiceStatus srvname jail = false).
Proof.
  unfold Service.service.
  destruct (ServiceScript srvname jail); cbn [negb].
  - destruct state; destruct (ServiceStatus srvname jail); cbn [negb];
      (split;
       [ intros [message H]; try discriminate H; auto
       | intros [H | [[H1 H2] | [H1 H2]]]; try discriminate; eauto ]).
  - split; eauto.
Qed.

(** X2. A command yielded for one of the four fixed states is, in order:
    [service], [-v] when verbose, [-j] and the quoted jail when a jail is
    given, [-E] and the quoted variable for each environment variable in the
    order given, the quoted service name, and the verb of the state. *)
Theorem service_verb_command_shape
  (ServiceScript ServiceStatus : string -> option string -> bool)
  (srvname : string) (jail : option string) (state : Service.ServiceStates)
  (command : Service.CommandArg) (environment : option (list string))
  (verbose : bool) (yielded : StringCommand) :
  Service.service ServiceScript ServiceStatus srvname jail state command
                  environment verbose = Yield yielded ->
  state <> Service.SRV_CUSTOM ->
  yielded
  = [Raw "service"]
      ++ (if verbose then [Raw "-v"] else [])
      ++ match jail with
         | Some j => [Raw "-j"; QuoteString (QStr j)]
         | None => []
         end
      ++ flat_map (fun env_var => [Raw "-E"; QuoteString (QStr env_var)])
                  (default [] environment)
      ++ [QuoteString (QStr srvname);
          Raw match state with
              | Service.SRV_STARTED => "start"
              | Service.SRV_STOPPED => "stop"
              | Service.SRV_RESTARTED => "restart"
              | Service.SRV_RELOADED => "reload"
              | Service.SRV_CUSTOM => ""
              end].
Proof.
  intros Hrun Hstate. unfold Service.service in Hrun.
  rewrite service_prefix_shape in Hrun.
  destruct (ServiceScript srvname jail); cbn [negb] in Hrun; [| discriminate].
  destruct state; try congruence;
    try (destruct (ServiceStatus srvname jail); cbn [negb] in Hrun; try discriminate);
    injection Hrun as <-; rewrite <- !app_assoc; reflexivity.
Qed.

Lemma service_verb_command_shape_witness :
  Service.service (fun _ _ => true) (fun _ _ => true) "nginx" (Some "web")
                  Service.SRV_RESTARTED Service.CommandNone
                  (Some ["A=1"; "B=2"]) true
  = Yield [Raw "service"; Raw "-v"; Raw "-j"; QuoteString (QStr "web");
           Raw "-E"; QuoteString (QStr "A=1"); Raw "-E"; QuoteString (QStr "B=2");
           QuoteString (QStr "nginx"); Raw "restart"].
Proof.
  apply (f_equal Yield).
  exact (service_verb_command_shape
           (fun _ _ => true) (fun _ _ => true) "nginx" (Some "web")
           Service.SRV_RESTARTED Service.CommandNone (Some ["A=1"; "B=2"]) true
           _ eq_refl ltac:(discriminate)).
Defined.

(** X3. Every unquoted word of a command that [service] yields is one of the
    eight words the operation writes itself; the service name, the jail, the
    environment variables and the custom command reach the command only
    inside quoted bits. *)
Theorem service_raw_words_are_fixed
  (ServiceScript ServiceStatus : string -> option string -> bool)
  (srvname : string) (jail : option string) (state : Service.ServiceStates)
  (command : Service.CommandArg) (environment : option (list string))
  (verbose : bool) (yielded : StringCommand) :
  Service.service ServiceScript ServiceStatus srvname jail state command
                  environment verbose = Yield yielded ->
  Forall (fun word => In word service_words) (raw_words yielded).
Proof.
  intros Hrun. unfold Service.service in Hrun.
  pose proof (raw_words_service_prefix jail environment verbose) as Hprefix.
  destruct (ServiceScript srvname jail); cbn [negb] in Hrun; [| discriminate].
  destruct state;
    try (destruct (ServiceStatus srvname jail); cbn [negb] in Hrun; try discriminate);
    injection Hrun as <-; rewrite !raw_words_app;
    rewrite ?raw_words_custom_bits;
    repeat apply Forall_app_2; try exact Hprefix; simpl; words_in.
Qed.

Lemma service_raw_words_are_fixed_witness :
  Forall (fun word => In word service_words)
    (raw_words [Raw "service"; Raw "-j"; QuoteString (QStr "web; rm -rf /");
                QuoteString (QStr "nginx"); Raw "stop"]).
Proof.
  exact (service_raw_words_are_fixed
           (fun _ _ => true) (fun _ _ => true) "nginx" (Some "web; rm -rf /")
           Service.SRV_STOPPED Service.CommandNone None false _ eq_refl).
Defined.

(** X4. With state [SRV_CUSTOM] and a list as command, the yielded command
    ends, after the quoted service name, with a single quoted bit that holds
    the whole list; it is never the command with one quoted bit per element
    of the list. *)
Theorem service_custom_list_is_one_bit
  (ServiceScript ServiceStatus : string -> option string -> bool)
  (srvname : string) (jail : option string) (l : list string)
  (environment : option (list string)) (verbose : bool) :
  ServiceScript srvname jail = true ->
  let args := Service.service_prefix jail environment verbose in
  Service.service ServiceScript ServiceStatus srvname jail Service.SRV_CUSTOM
                  (Service.CommandList l) environment verbose
  = Yield ((args ++ [QuoteString (QStr srvname)]) ++ [QuoteString (QList l)])
  /\ Service.service ServiceScript ServiceStatus srvname jail Service.SRV_CUSTOM
                     (Service.CommandList l) environment verbose
     <> Yield ((args ++ [QuoteString (QStr srvname)])
                 ++ map (fun c => QuoteString (QStr c)) l).
Proof.
  intros Hscript args.
  assert (Hrun :
    Service.service ServiceScript ServiceStatus srvname jail Service.SRV_CUSTOM
                    (Service.CommandList l) environment verbose
    = Yield ((args ++ [QuoteString (QStr srvname)]) ++ [QuoteString (QList l)])).
  { unfold Service.service. now rewrite Hscript. }
  split; [exact Hrun |].
  rewrite Hrun. intros Heq. injection Heq as Heq. apply app_inv_head in Heq.
  destruct l as [| c [| c' rest]]; simpl in Heq; discriminate.
Qed.

Lemma service_custom_list_is_one_bit_witness :
  Service.service (fun _ _ => true) (fun _ _ => false) "sopel" None
                  Service.SRV_CUSTOM (Service.CommandList ["configure"; "--help"])
                  None false
  = Yield [Raw "service"; QuoteString (QStr "sopel");
           QuoteString (QList ["configure"; "--help"])].
Proof.
  exact (proj1 (service_custom_list_is_one_bit
                  (fun _ _ => true) (fun _ _ => false) "sopel" None
                  ["configure"; "--help"] None false eq_refl)).
Defined.

(** ** The operation [sysrc] *)

(** X5. [sysrc] yields no command exactly in two cases: the parameter is to
    be deleted and has no value; the parameter is to be set without
    [overwrite] and has a value. *)
Theorem sysrc_noop_iff (SysrcFact : string -> option string -> option string)
  (parameter value : string) (jail : option string)
  (command : Sysrc.SysrcCommands) (overwrite : bool) :
  (exists message,
     Sysrc.sysrc SysrcFact parameter value jail command overwrite = Noop message)
  <-> (command = Sysrc.SYSRC_DEL /\ opt_truthy (SysrcFact parameter jail) = false)
      \/ (command = Sysrc.SYSRC_SET /\ overwrite = false
          /\ opt_truthy (SysrcFact parameter jail) = true).
Proof.
  unfold Sysrc.sysrc.
  destruct command, overwrite, (opt_truthy (SysrcFact parameter jail));
    cbn [negb andb];
    (split;
     [ intros [message H]; try discriminate H; auto
     | intros [[H1 H2] | [H1 [H2 H3]]]; try discriminate; eauto ]).
Qed.

(** X6. A command that [sysrc] yields is, in order: [sysrc -i], [-j] and the
    quoted jail when a jail is given, [--], and one quoted bit holding the
    parameter, the sign of the command and the value. *)
Theorem sysrc_command_shape (SysrcFact : string -> option string -> option string)
  (parameter value : string) (jail : option string)
  (command : Sysrc.SysrcCommands) (overwrite : bool) (yielded : StringCommand) :
  Sysrc.sysrc SysrcFact parameter value jail command overwrite = Yield yielded ->
  yielded
  = [Raw "sysrc"; Raw "-i"]
      ++ match jail with
         | Some j => [Raw "-j"; QuoteString (QStr j)]
         | None => []
         end
      ++ [Raw "--";
          QuoteString
            (QStr (parameter
                     +:+ match command with
                         | Sysrc.SYSRC_ADD => "+="
                         | Sysrc.SYSRC_SUB => "-="
                         | Sysrc.SYSRC_SET => "="
                         | Sysrc.SYSRC_DEL => "="
                         end
                     +:+ value))].
Proof.
  unfold Sysrc.sysrc, Sysrc.sysrc_command. intros Hrun.
  destruct command, overwrite, (opt_truthy (SysrcFact parameter jail));
    cbn [negb andb] in Hrun; try discriminate Hrun;
    injection Hrun as <-; destruct jail; reflexivity.
Qed.

(** The docstring's example, in a jail. *)
Lemma sysrc_command_shape_witness :
  Sysrc.sysrc (fun _ _ => None) "beanstalkd_enable" "YES" (Some "web")
              Sysrc.SYSRC_SET false
  = Yield [Raw "sysrc"; Raw "-i"; Raw "-j"; QuoteString (QStr "web");
           Raw "--"; QuoteString (QStr "beanstalkd_enable=YES")].
Proof.
  apply (f_equal Yield).
  exact (sysrc_command_shape (fun _ _ => None) "beanstalkd_enable" "YES"
           (Some "web") Sysrc.SYSRC_SET false _ eq_refl).
Defined.

(** X7. For a parameter that has a value, [SYSRC_DEL] yields the very
    command that [SYSRC_SET] with [overwrite] yields: the assignment
    [parameter=value], and no other command. *)
Theorem sysrc_del_yields_the_set_command
  (SysrcFact : string -> option string -> option string)
  (parameter value : string) (jail : option string) (overwrite : bool) :
  opt_truthy (SysrcFact parameter jail) = true ->
  Sysrc.sysrc SysrcFact parameter value jail Sysrc.SYSRC_DEL overwrite
  = Sysrc.sysrc SysrcFact parameter value jail Sysrc.SYSRC_SET true
  /\ exists front,
       Sysrc.sysrc SysrcFact parameter value jail Sysrc.SYSRC_DEL overwrite
       = Yield (front ++ [Raw "--"; QuoteString (QStr (parameter +:+ "=" +:+ value))]).
Proof.
  intros Hvalue. unfold Sysrc.sysrc, Sysrc.sysrc_command. rewrite Hvalue.
  cbn [negb andb]. split; [reflexivity |].
  eexists. reflexivity.
Qed.

Lemma sysrc_del_yields_the_set_command_witness :
  Sysrc.sysrc (fun _ _ => Some "YES") "beanstalkd_enable" "NO" None
              Sysrc.SYSRC_DEL false
  = Sysrc.sysrc (fun _ _ => Some "YES") "beanstalkd_enable" "NO" None
                Sysrc.SYSRC_SET true
  /\ exists front,
       Sysrc.sysrc (fun _ _ => Some "YES") "beanstalkd_enable" "NO" None
                   Sysrc.SYSRC_DEL false
       = Yield (front ++ [Raw "--"; QuoteString (QStr ("beanstalkd_enable" +:+ "=" +:+ "NO"))]).
Proof.
  exact (sysrc_del_yields_the_set_command (fun _ _ => Some "YES")
           "beanstalkd_enable" "NO" None false eq_refl).
Defined.

(** X8. Every unquoted word of a command that [sysrc] yields is one of the
    four words the operation writes itself; the jail, the parameter and the
    value reach the command only inside quoted bits. *)
Theorem sysrc_raw_words_are_fixed
  (SysrcFact : string -> option string -> option string)
  (parameter value : string) (jail : option string)
  (command : Sysrc.SysrcCommands) (overwrite : bool) (yielded : StringCommand) :
  Sysrc.sysrc SysrcFact parameter value jail command overwrite = Yield yielded ->
  Forall (fun word => In word sysrc_words) (raw_words yielded).
Proof.
  unfold Sysrc.sysrc, Sysrc.sysrc_command. intros Hrun.
  destruct command, overwrite, (opt_truthy (SysrcFact parameter jail));
    cbn [negb andb] in Hrun; try discriminate Hrun;
    injection Hrun as <-; destruct jail; simpl; words_in.
Qed.

Lemma sysrc_raw_words_are_fixed_witness :
  Forall (fun word => In word sysrc_words)
    (raw_words [Raw "sysrc"; Raw "-i"; Raw "--";
                QuoteString (QStr "motd+=$(reboot)")]).
Proof.
  exact (sysrc_raw_words_are_fixed (fun _ _ => None) "motd" "$(reboot)" None
           Sysrc.SYSRC_ADD false _ eq_refl).
Defined.

(** ** The connector: inventory data, [connect] and [run_shell_command] *)

(** X9. [make_names_data] raises [InventoryError] exactly when no name or
    the empty name is given.  For any other name it yields the host
    [@appjail/<name>], in the group [@appjail], whose data hold the name
    under [jail]; and two names that yield the same host name are the same
    name. *)
Theorem make_names_data_names_the_jail :
  (forall name,
     (exists message, make_names_data name = InventoryError message)
     <-> not_set name)
  /\ (forall name jail,
        is_set name jail ->
        exists data,
          make_names_data name = YieldHost ("@appjail/" +:+ jail) data ["@appjail"]
          /\ data !! "jail" = Some jail)
  /\ (forall a b host data_a data_b groups_a groups_b,
        make_names_data (Some a) = YieldHost host data_a groups_a ->
        make_names_data (Some b) = YieldHost host data_b groups_b ->
        a = b).
Proof.
  split; [| split].
  - intros [[| c rest] |]; unfold make_names_data, not_set; simpl; split;
      try (intros [message H]; discriminate H); eauto;
      intros [H | H]; discriminate H.
  - intros name jail [-> Hjail]. unfold make_names_data.
    destruct jail as [| c rest]; [contradiction |]. simpl.
    eexists. split; [reflexivity | apply lookup_singleton_eq].
  - intros a b host data_a data_b groups_a groups_b Ha Hb.
    unfold make_names_data in Ha, Hb.
    destruct a as [| ca resta], b as [| cb restb]; simpl in Ha, Hb;
      try discriminate.
    injection Ha as Ha _ _. injection Hb as Hb _ _. subst host.
    simpl in Hb. injection Hb. congruence.
Qed.

(** [connect] when the probe returns. *)
Lemma connect_returns (env : Env) (host : HostData) (w : World)
  (out : string) (files : FS) :
  local_shell env (status_probe (data_jail host)) (fs w) = (Ret out, files) ->
  connect env host w
  = (Ret tt,
     mkWorld files (Some (data_jail host))
             (trace w ++ [EvLocalConnect; EvShell (status_probe (data_jail host))])).
Proof.
  intros Hprobe.
  unfold connect, mbind, M_bind, log, try_except_PyinfraError, shell.
  world_simpl. fold (status_probe (data_jail host)). rewrite Hprobe.
  unfold set_self_jail. world_simpl. now rewrite <- app_assoc.
Qed.

(** [connect] when the probe raises. *)
Lemma connect_raises (env : Env) (host : HostData) (w : World)
  (e : Exn) (files : FS) :
  local_shell env (status_probe (data_jail host)) (fs w) = (Raise e, files) ->
  connect env host w
  = (Raise match as_PyinfraError e with
           | Some message => ConnectError message
           | None => e
           end,
     mkWorld files (self_jail w)
             (trace w ++ [EvLocalConnect; EvShell (status_probe (data_jail host))])).
Proof.
  intros Hprobe.
  unfold connect, mbind, M_bind, log, try_except_PyinfraError, shell.
  world_simpl. fold (status_probe (data_jail host)). rewrite Hprobe.
  destruct (as_PyinfraError e); unfold raise; world_simpl;
    now rewrite <- app_assoc.
Qed.

(** X10. When the probe of [connect] returns, [self.jail] holds the jail of
    the host's data, and the command that a [run_shell_command] that follows
    hands to the local connector enters that jail, the jail that was probed,
    whatever [self.jail] held before. *)
Theorem connect_then_run_enters_the_probed_jail (env : Env) (host : HostData)
  (command : StringCommand) (print_output print_input : bool)
  (arguments : Arguments) (w : World) (out : string) (files : FS) :
  local_shell env (status_probe (data_jail host)) (fs w) = (Ret out, files) ->
  let after :=
    (connect env host ;;
     run_shell_command env host command print_output print_input arguments) w in
  let parts := extract_control_arguments env arguments in
  self_jail (connect env host w).2 = Some (data_jail host)
  /\ self_jail after.2 = Some (data_jail host)
  /\ trace after.2
     = trace w
         ++ [EvLocalConnect;
             EvShell (status_probe (data_jail host));
             EvRun (jexec_args host (data_jail host)
                      (QuoteString
                         (QCommand (make_unix_command_for_host env command parts.2))))
                   print_output print_input parts.1].
Proof.
  intros Hprobe. cbv zeta.
  unfold mbind, M_bind. rewrite (connect_returns env host w out files Hprobe).
  split; [reflexivity |].
  rewrite (run_shell_command_run env host command print_output print_input
             arguments
             (mkWorld files (Some (data_jail host))
                (trace w ++ [EvLocalConnect; EvShell (status_probe (data_jail host))]))
             (data_jail host) eq_refl).
  world_simpl. rewrite <- app_assoc. eauto.
Qed.

Lemma connect_then_run_enters_the_probed_jail_witness :
  let env := TestAppJail.test_env (TestAppJail.fake_process 0) in
  let after :=
    (connect env TestAppJail.not_a_jail ;;
     run_shell_command env TestAppJail.not_a_jail [Raw "echo"; Raw "hoi"]
                       false false ∅) (mkWorld ∅ (Some "another-jail") []) in
  let parts := extract_control_arguments env ∅ in
  self_jail (connect env TestAppJail.not_a_jail
                     (mkWorld ∅ (Some "another-jail") [])).2 = Some "not-a-jail"
  /\ self_jail after.2 = Some "not-a-jail"
  /\ trace after.2
     = [] ++ [EvLocalConnect;
              EvShell (status_probe "not-a-jail");
              EvRun (jexec_args TestAppJail.not_a_jail "not-a-jail"
                       (QuoteString
                          (QCommand (make_unix_command_for_host env
                                       [Raw "echo"; Raw "hoi"] parts.2))))
                    false false parts.1].
Proof.
  exact (connect_then_run_enters_the_probed_jail
           (TestAppJail.test_env (TestAppJail.fake_process 0))
           TestAppJail.not_a_jail [Raw "echo"; Raw "hoi"] false false ∅
           (mkWorld ∅ (Some "another-jail") []) "True" ∅ eq_refl).
Defined.

(** X11. On a connector that was never connected, when the probe of
    [connect] raises, a [run_shell_command] called afterwards raises
    [AttributeError] for [jail], and hands nothing to the local connector:
    the world stays as the failed [connect] left it. *)
Theorem run_after_failed_connect_raises (env : Env) (host : HostData)
  (command : StringCommand) (print_output print_input : bool)
  (arguments : Arguments) (w : World) (e : Exn) (files : FS) :
  self_jail w = None ->
  local_shell env (status_probe (data_jail host)) (fs w) = (Raise e, files) ->
  let failed := (connect env host w).2 in
  run_shell_command env host command print_output print_input arguments failed
  = (Raise (AttributeError "jail"), failed)
  /\ trace failed = trace w ++ [EvLocalConnect; EvShell (status_probe (data_jail host))].
Proof.
  intros Hjail Hprobe. cbv zeta.
  rewrite (connect_raises env host w e files Hprobe). world_simpl.
  split; [| reflexivity].
  now apply run_shell_command_unconnected.
Qed.

(** [test_connect_all_error], then a command. *)
Lemma run_after_failed_connect_raises_witness :
  let env := TestAppJail.test_env (TestAppJail.fake_process 0) in
  let host := mkHostData "a-broken-jail" false None None "" in
  let failed := (connect env host (mkWorld ∅ None [])).2 in
  run_shell_command env host [Raw "echo"; Raw "hoi"] false false ∅ failed
  = (Raise (AttributeError "jail"), failed)
  /\ trace failed
     = [] ++ [EvLocalConnect; EvShell (status_probe "a-broken-jail")].
Proof.
  exact (run_after_failed_connect_raises
           (TestAppJail.test_env (TestAppJail.fake_process 0))
           (mkHostData "a-broken-jail" false None None "")
           [Raw "echo"; Raw "hoi"] false false ∅ (mkWorld ∅ None [])
           (PyinfraError "Invalid command: appjail status a-broken-jail") ∅
           eq_refl eq_refl).
Defined.

(** ** File transfer: the ways out before the copy *)

(** X12. On a connector that is not connected, [put_file] still stages the
    source (it reads [self.jail] only after the write), then raises
    [AttributeError] for [jail]; [get_file] raises it at once.  Neither
    probes, copies or writes to a destination, and both remove the staging
    file: the files are those of before, without the staging path. *)
Theorem transfers_before_connect_raise (env : Env) (host : HostData)
  (remote_filename : string) (filename_or_io : FileOrIO)
  (print_output print_input : bool) (w : World) :
  self_jail w = None ->
  let temp_filename := mkstemp_name env (fs w) in
  (forall data,
     source_read env filename_or_io (<[temp_filename := EmptyString]> (fs w))
     = Ret data ->
     put_file env host filename_or_io remote_filename print_output print_input w
     = (Raise (AttributeError "jail"),
        mkWorld (delete temp_filename (fs w)) None
                (trace w ++ [EvMkstemp temp_filename;
                             EvWriteTemp temp_filename (to_bytes data);
                             EvRemove temp_filename])))
  /\ get_file env host remote_filename filename_or_io print_output print_input w
     = (Raise (AttributeError "jail"),
        mkWorld (delete temp_filename (fs w)) None
                (trace w ++ [EvMkstemp temp_filename; EvRemove temp_filename])).
Proof.
  intros Hjail temp_filename. split.
  - intros data Hread.
    unfold put_file, put_file_body, mbind, M_bind, mkstemp, try_finally,
      read_source, write_file, get_self_jail, os_remove.
    fold temp_filename. world_simpl. rewrite Hread. world_simpl.
    rewrite Hjail. world_simpl. rewrite lookup_insert_eq.
    rewrite !delete_insert_eq, <- !app_assoc. reflexivity.
  - unfold get_file, get_file_body, mbind, M_bind, mkstemp, try_finally,
      get_self_jail, os_remove.
    fold temp_filename. world_simpl.
    rewrite Hjail. world_simpl. rewrite lookup_insert_eq.
    rewrite !delete_insert_eq, <- !app_assoc, ?Hjail. reflexivity.
Qed.

Lemma transfers_before_connect_raise_witness :
  let env := TestAppJail.test_env TestAppJail.cp_process in
  let w := mkWorld {[ "/etc/motd" := "hello" ]} None [] in
  (forall data,
     source_read env (IOObject 0) (<["__tempfile__" := EmptyString]> (fs w))
     = Ret data ->
     put_file env TestAppJail.not_a_jail (IOObject 0) "motd" false false w
     = (Raise (AttributeError "jail"),
        mkWorld (delete "__tempfile__" (fs w)) None
                (trace w ++ [EvMkstemp "__tempfile__";
                             EvWriteTemp "__tempfile__" (to_bytes data);
                             EvRemove "__tempfile__"])))
  /\ get_file env TestAppJail.not_a_jail "motd" (IOObject 0) false false w
     = (Raise (AttributeError "jail"),
        mkWorld (delete "__tempfile__" (fs w)) None
                (trace w ++ [EvMkstemp "__tempfile__"; EvRemove "__tempfile__"])).
Proof.
  exact (transfers_before_connect_raise
           (TestAppJail.test_env TestAppJail.cp_process) TestAppJail.not_a_jail
           "motd" (IOObject 0) false false
           (mkWorld {[ "/etc/motd" := "hello" ]} None []) eq_refl).
Defined.

(** X13. When the source of [put_file] cannot be read, the exception of the
    read escapes as it is, connected or not: nothing is written to the
    staging file, no probe and no copy is run, and the staging file is
    removed. *)
Theorem put_file_unreadable_source (env : Env) (host : HostData)
  (filename_or_io : FileOrIO) (remote_filename : string)
  (print_output print_input : bool) (w : World) (e : Exn) :
  let temp_filename := mkstemp_name env (fs w) in
  source_read env filename_or_io (<[temp_filename := EmptyString]> (fs w))
  = Raise e ->
  put_file env host filename_or_io remote_filename print_output print_input w
  = (Raise e,
     mkWorld (delete temp_filename (fs w)) (self_jail w)
             (trace w ++ [EvMkstemp temp_filename; EvRemove temp_filename])).
Proof.
  intros temp_filename Hread.
  unfold put_file, put_file_body, mbind, M_bind, mkstemp, try_finally,
    read_source, os_remove.
  fold temp_filename. world_simpl. rewrite Hread. world_simpl.
  rewrite lookup_insert_eq, delete_insert_eq, <- !app_assoc. reflexivity.
Qed.

(** [put_file] of a local path that does not exist. *)
Lemma put_file_unreadable_source_witness :
  put_file (TestAppJail.test_env TestAppJail.cp_process) TestAppJail.not_a_jail
           (Filename "/no/such/file") "motd" true false (TestAppJail.connected ∅)
  = (Raise (FileNotFoundError "/no/such/file"),
     mkWorld (delete "__tempfile__" ∅) (Some "not-a-jail")
             ([] ++ [EvMkstemp "__tempfile__"; EvRemove "__tempfile__"])).
Proof.
  exact (put_file_unreadable_source
           (TestAppJail.test_env TestAppJail.cp_process) TestAppJail.not_a_jail
           (Filename "/no/such/file") "motd" true false (TestAppJail.connected ∅)
           (FileNotFoundError "/no/such/file") eq_refl).
Defined.

(** X14. When the root probe raises, [put_file] and [get_file] raise the
    probe's exception unchanged (a [PyinfraError] stays a [PyinfraError]; it
    is not turned into a [ConnectError] or an [IOError]); no copy is run,
    [get_file] neither opens nor writes its destination, and the staging
    file, if the probe left it in place, is removed. *)
Theorem transfers_pass_on_probe_failure (env : Env) (host : HostData) :
  (forall (filename_or_io : FileOrIO) (remote_filename : string)
          (print_output print_input : bool) (w : World)
          (jail : string) (data : ReadData) (e : Exn) (files : FS),
     self_jail w = Some jail ->
     let temp_filename := mkstemp_name env (fs w) in
     let created := <[temp_filename := EmptyString]> (fs w) in
     source_read env filename_or_io created = Ret data ->
     local_shell env (root_probe jail) (<[temp_filename := to_bytes data]> created)
     = (Raise e, files) ->
     is_Some (files !! temp_filename) ->
     put_file env host filename_or_io remote_filename print_output print_input w
     = (Raise e,
        mkWorld (delete temp_filename files) (Some jail)
                (trace w ++ [EvMkstemp temp_filename;
                             EvWriteTemp temp_filename (to_bytes data);
                             EvShell (root_probe jail);
                             EvRemove temp_filename])))
  /\ (forall (remote_filename : string) (filename_or_io : FileOrIO)
             (print_output print_input : bool) (w : World)
             (jail : string) (e : Exn) (files : FS),
        self_jail w = Some jail ->
        let temp_filename := mkstemp_name env (fs w) in
        local_shell env (root_probe jail) (<[temp_filename := EmptyString]> (fs w))
        = (Raise e, files) ->
        is_Some (files !! temp_filename) ->
        get_file env host remote_filename filename_or_io print_output print_input w
        = (Raise e,
           mkWorld (delete temp_filename files) (Some jail)
                   (trace w ++ [EvMkstemp temp_filename;
                                EvShell (root_probe jail);
                                EvRemove temp_filename]))).
Proof.
  split.
  - intros until files. intros Hjail temp_filename created Hread Hprobe [held Hheld].
    unfold put_file, put_file_body, mbind, M_bind, mkstemp, try_finally,
      read_source, write_file, get_self_jail, shell, os_remove.
    fold temp_filename. fold created. world_simpl. rewrite Hread. world_simpl.
    rewrite Hjail. world_simpl.
    change ("appjail cmd local " +:+ jail +:+ " pwd") with (root_probe jail).
    rewrite Hprobe. world_simpl. rewrite Hheld, <- !app_assoc. reflexivity.
  - intros until files. intros Hjail temp_filename Hprobe [held Hheld].
    unfold get_file, get_file_body, mbind, M_bind, mkstemp, try_finally,
      get_self_jail, shell, os_remove.
    fold temp_filename. world_simpl. rewrite Hjail. world_simpl.
    change ("appjail cmd local " +:+ jail +:+ " pwd") with (root_probe jail).
    rewrite Hprobe. world_simpl. rewrite Hheld, ?Hjail, <- !app_assoc. reflexivity.
Qed.

(** A connector whose jail has gone since it connected: the probe fails. *)
Lemma transfers_pass_on_probe_failure_witness :
  let env := TestAppJail.test_env TestAppJail.cp_process in
  let w := mkWorld ∅ (Some "gone") [] in
  let e := PyinfraError "Invalid command: appjail cmd local gone pwd" in
  put_file env TestAppJail.not_a_jail (IOObject 0) "motd" false false w
  = (Raise e,
     mkWorld (delete "__tempfile__" (<["__tempfile__" := "test!"]>
                                       (<["__tempfile__" := EmptyString]> ∅)))
             (Some "gone")
             ([] ++ [EvMkstemp "__tempfile__"; EvWriteTemp "__tempfile__" "test!";
                     EvShell (root_probe "gone"); EvRemove "__tempfile__"]))
  /\ get_file env TestAppJail.not_a_jail "motd" (IOObject 0) false false w
     = (Raise e,
        mkWorld (delete "__tempfile__" (<["__tempfile__" := EmptyString]> ∅))
                (Some "gone")
                ([] ++ [EvMkstemp "__tempfile__"; EvShell (root_probe "gone");
                        EvRemove "__tempfile__"])).
Proof.
  split.
  - eapply (proj1 (transfers_pass_on_probe_failure
                     (TestAppJail.test_env TestAppJail.cp_process)
                     TestAppJail.not_a_jail)
                  (IOObject 0) "motd" false false (mkWorld ∅ (Some "gone") [])
                  "gone" (DataStr "test!"));
      [reflexivity | reflexivity | reflexivity | vm_compute; eexists; reflexivity].
  - eapply (proj2 (transfers_pass_on_probe_failure
                     (TestAppJail.test_env TestAppJail.cp_process)
                     TestAppJail.not_a_jail)
                  "motd" (IOObject 0) false false (mkWorld ∅ (Some "gone") [])
                  "gone");
      [reflexivity | reflexivity | vm_compute; eexists; reflexivity].
Defined.

(** ** Invariants of the methods *)

Section Keeping.

Context {R : World -> World -> Prop}.
Hypothesis R_refl : forall w, R w w.
Hypothesis R_trans : forall w1 w2 w3, R w1 w2 -> R w2 w3 -> R w1 w3.

Lemma keeps_ret {A : Type} (a : A) (Q : A -> Prop) : Q a -> keeps R (mret a) Q.
Proof.
  intros Ha w. unfold mret, M_ret; cbn. split; [apply R_refl |].
  intros a' H. now injection H as <-.
Qed.

Lemma keeps_raise {A : Type} (e : Exn) (Q : A -> Prop) : keeps R (raise e) Q.
Proof.
  intros w. unfold raise; cbn. split; [apply R_refl | discriminate].
Qed.

Lemma keeps_bind {A B : Type} (m : M A) (k : A -> M B)
  (Q : A -> Prop) (Q' : B -> Prop) :
  keeps R m Q -> (forall a, Q a -> keeps R (k a) Q') -> keeps R (m ≫= k) Q'.
Proof.
  intros Hm Hk w. unfold mbind, M_bind.
  destruct (Hm w) as [Hstep Hvalue].
  destruct (m w) as [[a | e] w1]; cbn in *.
  - destruct (Hk a (Hvalue a eq_refl) w1) as [Hstep' Hvalue'].
    split; [eapply R_trans; eassumption | exact Hvalue'].
  - split; [exact Hstep | discriminate].
Qed.

Lemma keeps_try_finally {A : Type} (body : M A) (cleanup : M unit) (Q : A -> Prop) :
  keeps R body Q -> keeps R cleanup (fun _ => True) ->
  keeps R (try_finally body cleanup) Q.
Proof.
  intros Hbody Hcleanup w. unfold try_finally.
  destruct (Hbody w) as [Hstep Hvalue].
  destruct (body w) as [r w1]; cbn in *.
  destruct (Hcleanup w1) as [Hstep' _].
  destruct (cleanup w1) as [[[] | e] w2]; cbn in *;
    (split; [eapply R_trans; eassumption |]); [exact Hvalue | discriminate].
Qed.

End Keeping.

Lemma steps_refl (P : Event -> Prop) (w : World) : steps P w w.
Proof.
  split; [reflexivity |]. exists []. now rewrite app_nil_r.
Qed.

Lemma steps_trans (P : Event -> Prop) (w1 w2 w3 : World) :
  steps P w1 w2 -> steps P w2 w3 -> steps P w1 w3.
Proof.
  intros [Hjail (new & Htrace & Hnew)] [Hjail' (new' & Htrace' & Hnew')].
  split; [congruence |].
  exists (new ++ new'). split.
  - now rewrite Htrace', Htrace, app_assoc.
  - now apply Forall_app_2.
Qed.

(** A step that leaves [self.jail] alone and adds the events [evs]. *)
Lemma steps_intro (P : Event -> Prop) (w : World) (files : FS) (evs : list Event) :
  Forall P evs -> steps P w (mkWorld files (self_jail w) (trace w ++ evs)).
Proof.
  intros Hevs. split; [reflexivity |]. now exists evs.
Qed.

Lemma steps_same (P : Event -> Prop) (w : World) (files : FS) :
  steps P w (mkWorld files (self_jail w) (trace w)).
Proof.
  split; [reflexivity |]. exists []. split; [now rewrite app_nil_r | constructor].
Qed.

Section Primitives.

Variable env : Env.
Variable P : Event -> Prop.

Lemma keeps_mkstemp :
  (forall path, P (EvMkstemp path)) -> keeps (steps P) (mkstemp env) (fun _ => True).
Proof.
  intros HP w. unfold mkstemp; cbn. split; [| auto].
  apply steps_intro. repeat constructor. apply HP.
Qed.

Lemma keeps_shell (command : string) :
  P (EvShell command) -> keeps (steps P) (shell env command) (fun _ => True).
Proof.
  intros HP w. unfold shell.
  destruct (local_shell env command (fs w)) as [r files]; cbn. split; [| auto].
  apply steps_intro. repeat constructor. exact HP.
Qed.

Lemma keeps_local_run_shell_command (command : StringCommand)
  (print_output print_input : bool) (arguments : Arguments) :
  P (EvRun command print_output print_input arguments) ->
  keeps (steps P)
        (local_run_shell_command env command print_output print_input arguments)
        (fun _ => True).
Proof.
  intros HP w. unfold local_run_shell_command.
  destruct (run_local_process env command arguments (fs w)) as [[code out] files]; cbn.
  split; [| auto]. apply steps_intro. repeat constructor. exact HP.
Qed.

Lemma keeps_read_source (filename_or_io : FileOrIO) :
  keeps (steps P) (read_source env filename_or_io) (fun _ => True).
Proof.
  intros w. unfold read_source; cbn. split; [apply steps_refl | auto].
Qed.

Lemma keeps_write_file (path data : string) :
  P (EvWriteTemp path data) -> keeps (steps P) (write_file path data) (fun _ => True).
Proof.
  intros HP w. unfold write_file; cbn. split; [| auto].
  apply steps_intro. repeat constructor. exact HP.
Qed.

Lemma keeps_get_self_jail : keeps (steps P) get_self_jail (fun _ => True).
Proof.
  intros w. unfold get_self_jail.
  destruct (self_jail w); cbn; (split; [apply steps_refl | auto]).
Qed.

Lemma keeps_open_file (path : string) :
  keeps (steps P) (open_file path) (fun _ => True).
Proof.
  intros w. unfold open_file.
  destruct (fs w !! path); cbn; (split; [apply steps_refl | auto]).
Qed.

Lemma keeps_open_sink (dest : FileOrIO) :
  keeps (steps P) (open_sink env dest) (fun _ => True).
Proof.
  intros w. unfold open_sink.
  destruct (sink_open env dest (fs w)) as [r files]; cbn.
  split; [apply steps_same | auto].
Qed.

Lemma keeps_write_sink (dest : FileOrIO) (data : string) :
  P (EvSinkWrite dest data) ->
  keeps (steps P) (write_sink env dest data) (fun _ => True).
Proof.
  intros HP w. unfold write_sink.
  destruct (sink_write env dest data (fs w)) as [r files]; cbn. split; [| auto].
  apply steps_intro. repeat constructor. exact HP.
Qed.

Lemma keeps_os_remove (path : string) :
  P (EvRemove path) -> keeps (steps P) (os_remove path) (fun _ => True).
Proof.
  intros HP w. unfold os_remove.
  destruct (fs w !! path); cbn; (split; [| auto]).
  - apply steps_intro. repeat constructor. exact HP.
  - apply steps_refl.
Qed.

Lemma keeps_check_status (host : HostData) (what remote_filename : string)
  (print_output : bool) (result : bool * CommandOutput) :
  (forall message, P (EvEcho message)) ->
  keeps (steps P) (check_status host what remote_filename print_output result)
        (fun _ => True).
Proof.
  intros HP w. unfold check_status.
  destruct result as [[|] output]; cbn [negb].
  - destruct print_output; unfold mbind, M_bind, mret, M_ret, echo, log; cbn;
      (split; [| auto]).
    + apply steps_intro. repeat constructor. apply HP.
    + apply steps_refl.
  - unfold raise; cbn. split; [apply steps_refl | auto].
Qed.

End Primitives.

(** Reading with universal newlines leaves no carriage return. *)
Lemma universal_newlines_CR_free (s : string) : CR_free (universal_newlines s).
Proof.
  unfold CR_free.
  induction s as [| c rest IH]; simpl; [constructor |].
  destruct (Ascii.eqb c CR) eqn:Hc.
  - destruct rest as [| c' rest']; simpl.
    + repeat constructor. discriminate.
    + destruct (Ascii.eqb c' LF) eqn:Hc'.
      * apply Ascii.eqb_eq in Hc'. subst c'. exact IH.
      * simpl. constructor; [discriminate | exact IH].
  - simpl. constructor; [now apply Ascii.eqb_neq | exact IH].
Qed.

(** What is read is what the file holds exactly when it holds no carriage
    return. *)
Lemma universal_newlines_fixes (s : string) :
  universal_newlines s = s <-> CR_free s.
Proof.
  split.
  - intros Heq. rewrite <- Heq. apply universal_newlines_CR_free.
  - apply universal_newlines_without_CR.
Qed.

Lemma keeps_read_opened (P : Event -> Prop) (path opened : string) :
  keeps (steps P) (read_opened path opened) CR_free.
Proof.
  intros w. unfold read_opened, read_text; cbn. split; [apply steps_refl |].
  intros data. destruct (utf8_valid _); [| discriminate].
  intros H. injection H as <-. apply universal_newlines_CR_free.
Qed.

Section Transfers.

Variable env : Env.
Variable host : HostData.
Variable P : Event -> Prop.

(** Every event that is neither a write to a destination nor an echo
    satisfies [P]. *)
Hypothesis P_other :
  forall ev,
    (forall dest data, ev <> EvSinkWrite dest data) ->
    (forall message, ev <> EvEcho message) ->
    P ev.

(** The [try ... finally] of [put_file]. *)
Lemma put_file_staged_keeps (temp_filename : string) (filename_or_io : FileOrIO)
  (remote_filename : string) (print_output print_input : bool) :
  keeps (steps P)
        (try_finally
           (put_file_body env temp_filename filename_or_io remote_filename
                          print_output print_input)
           (os_remove temp_filename))
        (fun _ => True).
Proof.
  unfold put_file_body.
  apply (keeps_try_finally (steps_trans P)).
  - eapply (keeps_bind (steps_trans P)); [apply keeps_read_source |].
    intros data _.
    eapply (keeps_bind (steps_trans P)); [apply keeps_write_file |].
    { apply P_other; discriminate. }
    intros _ _.
    eapply (keeps_bind (steps_trans P)); [apply keeps_get_self_jail |].
    intros jail _.
    eapply (keeps_bind (steps_trans P)); [apply keeps_shell |].
    { apply P_other; discriminate. }
    intros jail_directory _.
    apply keeps_local_run_shell_command. apply P_other; discriminate.
  - apply keeps_os_remove. apply P_other; discriminate.
Qed.

(** The [try ... finally] of [get_file]. *)
Lemma get_file_staged_keeps (temp_filename remote_filename : string)
  (filename_or_io : FileOrIO) (print_output print_input : bool) :
  (forall data, CR_free data -> P (EvSinkWrite filename_or_io data)) ->
  keeps (steps P)
        (try_finally
           (get_file_body env temp_filename remote_filename filename_or_io
                          print_output print_input)
           (os_remove temp_filename))
        (fun _ => True).
Proof.
  intros P_sink. unfold get_file_body.
  apply (keeps_try_finally (steps_trans P)).
  - eapply (keeps_bind (steps_trans P)); [apply keeps_get_self_jail |].
    intros jail _.
    eapply (keeps_bind (steps_trans P)); [apply keeps_shell |].
    { apply P_other; discriminate. }
    intros jail_directory _.
    eapply (keeps_bind (steps_trans P));
      [apply keeps_local_run_shell_command |].
    { apply P_other; discriminate. }
    intros result _.
    eapply (keeps_bind (steps_trans P)); [apply keeps_open_file |].
    intros opened _.
    eapply (keeps_bind (steps_trans P)); [apply keeps_open_sink |].
    intros _ _.
    eapply (keeps_bind (steps_trans P)); [apply keeps_read_opened |].
    intros data Hdata.
    eapply (keeps_bind (steps_trans P)); [apply keeps_write_sink |].
    { now apply P_sink. }
    intros _ _. exact (keeps_ret (steps_refl P) result (fun _ => True) I).
  - apply keeps_os_remove. apply P_other; discriminate.
Qed.

Hypothesis P_echo : forall message, P (EvEcho message).

Lemma put_file_keeps (filename_or_io : FileOrIO) (remote_filename : string)
  (print_output print_input : bool) :
  keeps (steps P)
        (put_file env host filename_or_io remote_filename print_output print_input)
        (fun _ => True).
Proof.
  unfold put_file.
  eapply (keeps_bind (steps_trans P)); [apply keeps_mkstemp |].
  { intros path. apply P_other; discriminate. }
  intros temp_filename _.
  eapply (keeps_bind (steps_trans P)); [apply put_file_staged_keeps |].
  intros result _. now apply keeps_check_status.
Qed.

Lemma get_file_keeps (remote_filename : string) (filename_or_io : FileOrIO)
  (print_output print_input : bool) :
  (forall data, CR_free data -> P (EvSinkWrite filename_or_io data)) ->
  keeps (steps P)
        (get_file env host remote_filename filename_or_io print_output print_input)
        (fun _ => True).
Proof.
  intros P_sink. unfold get_file.
  eapply (keeps_bind (steps_trans P)); [apply keeps_mkstemp |].
  { intros path. apply P_other; discriminate. }
  intros temp_filename _.
  eapply (keeps_bind (steps_trans P)); [now apply get_file_staged_keeps |].
  intros result _. now apply keeps_check_status.
Qed.

End Transfers.

(** X15. Whatever the environment does and however the call ends, every
    write that [get_file] makes to a destination goes to the destination it
    was given and carries data without a carriage return. *)
Theorem get_file_writes_no_carriage_return (env : Env) (host : HostData)
  (remote_filename : string) (filename_or_io : FileOrIO)
  (print_output print_input : bool) (w : World) :
  exists new,
    trace (get_file env host remote_filename filename_or_io
                    print_output print_input w).2
    = trace w ++ new
    /\ Forall (fun ev =>
                 forall dest data,
                   ev = EvSinkWrite dest data ->
                   dest = filename_or_io /\ CR_free data)
              new.
Proof.
  refine (proj2 (proj1 (get_file_keeps env host _ _ _ remote_filename filename_or_io
                          print_output print_input _ w))).
  - intros ev Hev _ dest data ->. now destruct (Hev dest data).
  - discriminate.
  - intros data Hdata dest data' H. now injection H as <- <-.
Qed.

(** [put_file] from the point where the staging file has its name. *)
Lemma put_file_after_mkstemp_keeps (env : Env) (host : HostData)
  (temp_filename : string) (filename_or_io : FileOrIO) (remote_filename : string)
  (print_output print_input : bool) :
  keeps (steps (staging_only temp_filename))
        (result ← try_finally
                    (put_file_body env temp_filename filename_or_io remote_filename
                                   print_output print_input)
                    (os_remove temp_filename) ;
         check_status host "file uploaded to jail: " remote_filename
                      print_output result)
        (fun _ => True).
Proof.
  set (P := staging_only temp_filename).
  eapply (keeps_bind (steps_trans P)).
  - unfold put_file_body. apply (keeps_try_finally (steps_trans P)).
    + eapply (keeps_bind (steps_trans P)); [apply keeps_read_source |].
      intros data _.
      eapply (keeps_bind (steps_trans P)); [now apply keeps_write_file |].
      intros _ _.
      eapply (keeps_bind (steps_trans P)); [apply keeps_get_self_jail |].
      intros jail _.
      eapply (keeps_bind (steps_trans P)); [now apply keeps_shell |].
      intros jail_directory _.
      now apply keeps_local_run_shell_command.
    + now apply keeps_os_remove.
  - intros result _. now apply keeps_check_status.
Qed.

(** X16. Whatever the environment does and however the call ends, the only
    file [put_file] itself creates, writes or removes is its staging file,
    the path [mkstemp] returned: it writes to no destination object, and
    every file it creates, writes or removes is that path. *)
Theorem put_file_touches_only_its_staging_file (env : Env) (host : HostData)
  (filename_or_io : FileOrIO) (remote_filename : string)
  (print_output print_input : bool) (w : World) :
  exists new,
    trace (put_file env host filename_or_io remote_filename
                    print_output print_input w).2
    = trace w ++ new
    /\ Forall (staging_only (mkstemp_name env (fs w))) new.
Proof.
  unfold put_file. unfold mbind at 1, M_bind at 1. unfold mkstemp.
  set (temp_filename := mkstemp_name env (fs w)).
  set (w1 := mkWorld _ _ _).
  destruct (put_file_after_mkstemp_keeps env host temp_filename filename_or_io
              remote_filename print_output print_input w1)
    as [[_ (new & Htrace & Hnew)] _].
  exists ([EvMkstemp temp_filename] ++ new). split.
  - rewrite Htrace. unfold w1. world_simpl. now rewrite <- app_assoc.
  - apply Forall_app_2; [| exact Hnew]. repeat constructor.
Qed.

(** X17. No method but [connect] changes [self.jail]: after
    [run_shell_command], [put_file] and [get_file], however they end, the
    connector is connected to the jail it was connected to before, or still
    not connected. *)
Theorem only_connect_sets_the_jail (env : Env) (host : HostData)
  (command : StringCommand) (arguments : Arguments)
  (filename_or_io : FileOrIO) (remote_filename : string)
  (print_output print_input : bool) (w : World) :
  self_jail (run_shell_command env host command print_output print_input
                               arguments w).2 = self_jail w
  /\ self_jail (put_file env host filename_or_io remote_filename
                         print_output print_input w).2 = self_jail w
  /\ self_jail (get_file env host remote_filename filename_or_io
                         print_output print_input w).2 = self_jail w.
Proof.
  split; [| split].
  - destruct (self_jail w) as [jail |] eqn:Hjail.
    + now rewrite (run_shell_command_run env host command print_output print_input
                     arguments w jail Hjail).
    + now rewrite (run_shell_command_unconnected env host command print_output
                     print_input arguments w Hjail).
  - refine (proj1 (proj1 (put_file_keeps env host (fun _ => True) _ _ filename_or_io
                            remote_filename print_output print_input w))); auto.
  - refine (proj1 (proj1 (get_file_keeps env host (fun _ => True) _ _ remote_filename
                            filename_or_io print_output print_input _ w))); auto.
Qed.

(** X18. In a [get_file] call that reaches the status check, what is written
    to the destination is the content of the staging file with every CR LF
    and every lone CR read as LF: the destination receives the content
    unchanged if and only if the content holds no carriage return. *)
Theorem get_file_delivers_unchanged_iff_no_CR (env : Env) (host : HostData)
  (remote_filename : string) (filename_or_io : FileOrIO)
  (print_output print_input : bool) (w : World)
  (jail root : string) (files2 files3 files4 files5 : FS)
  (exit_code : Z) (output : CommandOutput) (opened content : string) :
  self_jail w = Some jail ->
  let temp_filename := mkstemp_name env (fs w) in
  local_shell env (root_probe jail) (<[temp_filename := EmptyString]> (fs w))
  = (Ret root, files2) ->
  let copy := [Raw "cp"; Raw (root +:+ "/" +:+ remote_filename); Raw temp_filename] in
  run_local_process env copy ∅ files2 = ((exit_code, output), files3) ->
  files3 !! temp_filename = Some opened ->
  sink_open env filename_or_io files3 = (Ret tt, files4) ->
  files4 !! temp_filename = Some content ->
  utf8_valid (byte_codes content) = true ->
  sink_write env filename_or_io (universal_newlines content) files4 = (Ret tt, files5) ->
  is_Some (files5 !! temp_filename) ->
  let written := universal_newlines content in
  exists rest,
    trace (get_file env host remote_filename filename_or_io
                    print_output print_input w).2
    = trace w
        ++ [EvMkstemp temp_filename;
            EvShell (root_probe jail);
            EvRun copy print_output print_input ∅;
            EvSinkWrite filename_or_io written;
            EvRemove temp_filename]
        ++ rest
    /\ CR_free written
    /\ (written = content <-> CR_free content).
Proof.
  intros Hjail temp_filename Hprobe copy Hcopy Hopened Hsink Hcontent Hvalid
         Hwrite Hheld.
  rewrite (get_file_run env host remote_filename filename_or_io print_output
             print_input w jail root files2 files3 files4 files5 exit_code
             output opened content
             Hjail Hprobe Hcopy Hopened Hsink Hcontent Hvalid Hwrite Hheld).
  world_simpl. eexists. split; [reflexivity |].
  split; [apply universal_newlines_CR_free | apply universal_newlines_fixes].
Qed.

(** A file of the jail with a CR LF line ending arrives with LF. *)
Lemma get_file_delivers_unchanged_iff_no_CR_witness :
  let env := TestAppJail.test_env TestAppJail.cp_process in
  let content := "hi" +:+ String CR (String LF EmptyString) in
  let w := TestAppJail.connected {[ "/not-a-jail/motd" := content ]} in
  let written := "hi" +:+ String LF EmptyString in
  exists rest,
    trace (get_file env TestAppJail.not_a_jail "motd" (IOObject 0) false false w).2
    = [] ++ [EvMkstemp "__tempfile__";
             EvShell (root_probe "not-a-jail");
             EvRun [Raw "cp"; Raw ("/not-a-jail" +:+ "/" +:+ "motd");
                    Raw "__tempfile__"] false false ∅;
             EvSinkWrite (IOObject 0) written;
             EvRemove "__tempfile__"]
         ++ rest
    /\ CR_free written
    /\ (written = content <-> CR_free content).
Proof.
  eapply (get_file_delivers_unchanged_iff_no_CR
            (TestAppJail.test_env TestAppJail.cp_process) TestAppJail.not_a_jail
            "motd" (IOObject 0) false false
            (TestAppJail.connected
               {[ "/not-a-jail/motd" := "hi" +:+ String CR (String LF EmptyString) ]})
            "not-a-jail" "/not-a-jail" _ _ _ _ 0%Z (mkOutput "" "")
            ("hi" +:+ String CR (String LF EmptyString))
            ("hi" +:+ String CR (String LF EmptyString)));
    [reflexivity | reflexivity | vm_compute; reflexivity | vm_compute; reflexivity
    | reflexivity | vm_compute; reflexivity | reflexivity | reflexivity
    | vm_compute; eexists; reflexivity].
Defined.




